(** * deeplx-cli: a shallow embedding of [main.go]

    The command-line client loads (or generates) a YAML configuration file,
    merges it with the command-line flags, obtains the text to translate,
    performs one HTTP POST against the DeepLX API and prints the result.

    Go strings are byte sequences: they are modelled by [string] (a list of
    8-bit characters).  Go [int] values are modelled by [Z]; lengths and
    indices, which are never negative, by [nat].  A Go [error] is modelled by
    its message (the result of [err.Error()]). *)

From Stdlib Require Import ZArith String List Ascii DecimalString Bool Lia.
Import ListNotations.

Local Open Scope string_scope.
Local Open Scope Z_scope.

(** ** Formatting verbs of [fmt]

    [%d] prints a Go [int] in decimal, with a leading minus sign when it is
    negative; [%s], [%v] and [%w] of a string or of an error print the text. *)

Definition itoa (n : Z) : string := NilZero.string_of_int (Z.to_int n).

(** ** Constants and data types (main.go, lines 20-48) *)

Definition defaultDeepLXAPI : string := "https://deeplx.vercel.app/translate".
Definition configFileName : string := ".deeplx-cli.yml".
Definition version : string := "dev".

Record Config : Type := mkConfig {
  URL : string;
  SourceLang : string;
  TargetLang : string
}.

Record TranslationRequest : Type := mkTranslationRequest {
  req_Text : string;
  req_SourceLang : string;
  req_TargetLang : string
}.

Record TranslationResponse : Type := mkTranslationResponse {
  Code : Z;
  ID : Z;
  Message : string;
  Data : string
}.

(** The zero value [&Config{}]. *)
Definition emptyConfig : Config := mkConfig "" "" "".

(** The document generated on first run (main.go, lines 118-122). *)
Definition defaultConfig : Config := mkConfig defaultDeepLXAPI "auto" "EN".

(** ** Results of fallible calls *)

Definition error : Type := string.

Inductive result (A : Type) : Type :=
| Ok (a : A)
| Err (err : error).
Arguments Ok {A} a.
Arguments Err {A} err.

(** ** [trimSuffix] (part_000, lines 236-241)

    [strings.TrimSuffix], which main.go calls at line 219, has the same body:
    a [HasSuffix] test followed by the same slice. *)

(** [s[lo:]] and [s[:hi]]. *)
Definition sliceFrom (s : string) (lo : nat) : string :=
  substring lo (String.length s - lo) s.
Definition sliceTo (s : string) (hi : nat) : string :=
  substring 0 hi s.

Definition trimSuffix (s suffix : string) : string :=
  if (String.length suffix <=? String.length s)%nat
     && (sliceFrom s (String.length s - String.length suffix) =? suffix)%string
  then sliceTo s (String.length s - String.length suffix)
  else s.

(** ** Precedence merge (main.go, lines 173-198) *)

Definition nonEmpty (s : string) : bool := negb (s =? "")%string.

Definition finalURL (cfg : Config) (urlArg : string) : string :=
  let finalURL := defaultDeepLXAPI in
  let finalURL := if nonEmpty (URL cfg) then URL cfg else finalURL in
  let finalURL := if nonEmpty urlArg then urlArg else finalURL in
  finalURL.

Definition finalSourceLang (cfg : Config)
    (sourceLangArg sourceLangShortArg : string) : string :=
  let finalSourceLang := SourceLang cfg in
  if nonEmpty sourceLangArg then sourceLangArg
  else if nonEmpty sourceLangShortArg then sourceLangShortArg
  else if (finalSourceLang =? "")%string then "auto"
  else finalSourceLang.

Definition finalTargetLang (cfg : Config)
    (targetLangArg targetLangShortArg : string) : string :=
  let finalTargetLang := TargetLang cfg in
  if nonEmpty targetLangArg then targetLangArg
  else if nonEmpty targetLangShortArg then targetLangShortArg
  else if (finalTargetLang =? "")%string then "EN"
  else finalTargetLang.

(** ** Joining the positional arguments (main.go, lines 206-211)

    [joinArgs n i args inputText] runs the loop body for the arguments that
    remain, [i] being the index of the first of them and [n] the value of
    [len(flag.Args())]. *)

Fixpoint joinArgs (n : Z) (i : Z) (args : list string) (inputText : string)
  : string :=
  match args with
  | [] => inputText
  | arg :: rest =>
      let inputText := inputText ++ arg in
      let inputText := if i <? n - 1 then inputText ++ " " else inputText in
      joinArgs n (i + 1) rest inputText
  end.

(** ** The environment of one run

    Everything the process obtains from outside is collected in a [World]:
    the answers of the operating system and of the network, and the
    behaviour of the library codecs ([yaml], [json], [filepath]), which are
    not part of the repository.  Each answer is a function of the arguments
    of the call and is otherwise unconstrained: nothing is assumed about the
    file system between the write of the default document and the read that
    follows it, nor about the codecs. *)

(** [os.Stat]: success, an error for which [os.IsNotExist] holds, or any
    other error. *)
Inductive StatResult : Type :=
| StatOk
| StatNotExist (err : error)
| StatErr (err : error).

(** What [io.ReadAll] returns: the bytes read so far and the error, if any. *)
Record ReadAllResult : Type := mkReadAll {
  bytesRead : string;
  readErr : option error
}.

Record Response : Type := mkResponse {
  StatusCode : Z;
  Body : ReadAllResult
}.

(** One flag occurrence on the command line, for the flags registered at
    main.go, lines 156-163. *)
Inductive FlagSetting : Type :=
| Flag_text (v : string)
| Flag_source_lang (v : string)
| Flag_s (v : string)
| Flag_target_lang (v : string)
| Flag_t (v : string)
| Flag_url (v : string)
| Flag_version (b : bool)
| Flag_v (b : bool).

(** The command line as [flag.Parse] sees it: rejected (an undefined flag, a
    missing or malformed value), a request for help, or a sequence of flag
    occurrences followed by the positional arguments. *)
Inductive CommandLine : Type :=
| Rejected (err : error)
| HelpRequested
| Accepted (settings : list FlagSetting) (args : list string).

Record World : Type := mkWorld {
  w_user_Current : result string;
  w_filepath_Join : string -> string -> string;
  w_os_Stat : string -> StatResult;
  w_yaml_Marshal : Config -> result string;
  w_os_WriteFile : string -> string -> Z -> option error;
  w_os_ReadFile : string -> result string;
  w_yaml_Unmarshal : string -> result Config;
  w_commandLine : CommandLine;
  w_stdin : ReadAllResult;
  w_json_Marshal : TranslationRequest -> result string;
  w_http_Post : string -> string -> string -> result Response;
  w_json_Unmarshal : string -> result TranslationResponse;
  w_clipboard_WriteAll : string -> option error
}.

(** ** Observable effects *)

Inductive Event : Type :=
| Log (msg : string)
| Stdout (s : string)
| Usage
| WriteFile (path data : string) (perm : Z)
| HttpPost (url contentType body : string)
| ClipboardWrite (text : string).

Inductive Outcome (A : Type) : Type :=
| Return (a : A)
| Exit (code : Z).
Arguments Return {A} a.
Arguments Exit {A} code.

(** ** The monad of the program: reads the world, logs events, may exit *)

Definition M (A : Type) : Type := World -> list Event * Outcome A.

Definition ret {A : Type} (a : A) : M A := fun _ => ([], Return a).

Definition bind {A B : Type} (m : M A) (k : A -> M B) : M B :=
  fun w =>
    match m w with
    | (t, Return a) => let (t', o) := k a w in ((t ++ t')%list, o)
    | (t, Exit code) => (t, Exit code)
    end.

Declare Scope go_scope.
Delimit Scope go_scope with go.
Notation "x <- m ;; k" := (bind m (fun x => k))
  (at level 100, m at next level, right associativity) : go_scope.
Notation "m ;; k" := (bind m (fun _ => k))
  (at level 100, right associativity) : go_scope.
Local Open Scope go_scope.

Definition ask {A : Type} (f : World -> A) : M A := fun w => ([], Return (f w)).
Definition emit (e : Event) : M unit := fun _ => ([e], Return tt).

Definition os_Exit {A : Type} (code : Z) : M A := fun _ => ([], Exit code).
Definition log_Printf (msg : string) : M unit := emit (Log msg).
Definition log_Fatalf {A : Type} (msg : string) : M A :=
  emit (Log msg) ;; os_Exit 1.

Definition LF : string := String (ascii_of_nat 10) "".

Definition fmt_Printf (s : string) : M unit := emit (Stdout s).
Definition fmt_Println (s : string) : M unit := emit (Stdout (s ++ LF)).

Definition user_Current : M (result string) := ask w_user_Current.
Definition filepath_Join (a b : string) : M string :=
  ask (fun w => w_filepath_Join w a b).
Definition os_Stat (path : string) : M StatResult :=
  ask (fun w => w_os_Stat w path).
Definition yaml_Marshal (c : Config) : M (result string) :=
  ask (fun w => w_yaml_Marshal w c).
Definition os_WriteFile (path data : string) (perm : Z) : M (option error) :=
  emit (WriteFile path data perm) ;; ask (fun w => w_os_WriteFile w path data perm).
Definition os_ReadFile (path : string) : M (result string) :=
  ask (fun w => w_os_ReadFile w path).
Definition yaml_Unmarshal (data : string) : M (result Config) :=
  ask (fun w => w_yaml_Unmarshal w data).
Definition io_ReadAll_Stdin : M ReadAllResult := ask w_stdin.
Definition json_Marshal (r : TranslationRequest) : M (result string) :=
  ask (fun w => w_json_Marshal w r).
Definition http_Post (url contentType body : string) : M (result Response) :=
  emit (HttpPost url contentType body) ;;
  ask (fun w => w_http_Post w url contentType body).
Definition json_Unmarshal (data : string) : M (result TranslationResponse) :=
  ask (fun w => w_json_Unmarshal w data).
Definition clipboard_WriteAll (text : string) : M (option error) :=
  emit (ClipboardWrite text) ;; ask (fun w => w_clipboard_WriteAll w text).

(** ** [loadConfig] (main.go, lines 51-63) *)

Definition loadConfig (configPath : string) : M (result Config) :=
  file <- os_ReadFile configPath ;;
  match file with
  | Err err =>
      ret (Err ("failed to read config file " ++ configPath ++ ": " ++ err))
  | Ok file =>
      parsed <- yaml_Unmarshal file ;;
      match parsed with
      | Err err =>
          ret (Err ("failed to parse config file " ++ configPath ++ ": " ++ err))
      | Ok config => ret (Ok config)
      end
  end.

(** ** [translateText] (main.go, lines 66-103) *)

Definition translateText (text sourceLang targetLang apiURL : string)
  : M (result string) :=
  requestBody <- json_Marshal (mkTranslationRequest text sourceLang targetLang) ;;
  match requestBody with
  | Err err => ret (Err ("error marshalling request: " ++ err))
  | Ok requestBody =>
      resp <- http_Post apiURL "application/json" requestBody ;;
      match resp with
      | Err err => ret (Err ("error sending request to DeepLX API: " ++ err))
      | Ok resp =>
          if negb (StatusCode resp =? 200) then
            let bodyBytes := bytesRead (Body resp) in
            ret (Err ("DeepLX API returned non-200 status: "
                      ++ itoa (StatusCode resp) ++ ", body: " ++ bodyBytes))
          else
            let bodyBytes := bytesRead (Body resp) in
            match readErr (Body resp) with
            | Some err => ret (Err ("error reading response body: " ++ err))
            | None =>
                decoded <- json_Unmarshal bodyBytes ;;
                match decoded with
                | Err err => ret (Err ("error unmarshalling response: " ++ err))
                | Ok translationResponse =>
                    if negb (Code translationResponse =? 200) then
                      ret (Err ("translation failed with code "
                                ++ itoa (Code translationResponse) ++ ": "
                                ++ Message translationResponse))
                    else ret (Ok (Data translationResponse))
                end
            end
      end
  end.

(** ** Loading the configuration (main.go, lines 114-145) *)

Definition loadConfiguration (configPath : string) : M Config :=
  let cfg := emptyConfig in
  st <- os_Stat configPath ;;
  cfg <- match st with
         | StatNotExist _ =>
             log_Printf ("Config file " ++ configPath
                         ++ " does not exist, generating default config.") ;;
             yamlData <- yaml_Marshal defaultConfig ;;
             match yamlData with
             | Err err =>
                 log_Printf ("Warning: Failed to marshal default config: " ++ err)
             | Ok yamlData =>
                 werr <- os_WriteFile configPath yamlData 420 (* 0644 *) ;;
                 match werr with
                 | Some err =>
                     log_Printf ("Warning: Failed to write default config file "
                                 ++ configPath ++ ": " ++ err)
                 | None =>
                     log_Printf ("Default config file generated: " ++ configPath)
                 end
             end ;;
             ret defaultConfig
         | StatErr err =>
             log_Fatalf ("failed to check config file " ++ configPath ++ ": " ++ err)
         | StatOk => ret cfg
         end ;;
  loadedConfig <- loadConfig configPath ;;
  match loadedConfig with
  | Err err =>
      log_Printf ("Warning: Failed to load or parse config file " ++ configPath
                  ++ ", using default values or command-line arguments: " ++ err) ;;
      ret cfg
  | Ok loadedConfig => ret loadedConfig
  end.

(** ** Command-line flags (main.go, lines 148-165)

    Each flag is bound to a variable whose initial value is the default given
    at registration (the empty string, [false]); [flag.Parse] assigns the
    variable at every occurrence of the flag, in command-line order.  The flag
    set is [flag.CommandLine], whose error handling is [ExitOnError]: a
    rejected command line ends the process with status 2 and a request for
    help with status 0, after the usage message. *)

Record FlagVars : Type := mkFlagVars {
  textArg : string;
  sourceLangArg : string;
  sourceLangShortArg : string;
  targetLangArg : string;
  targetLangShortArg : string;
  urlArg : string;
  versionFlag : bool
}.

Definition flagDefaults : FlagVars := mkFlagVars "" "" "" "" "" "" false.

Definition setFlag (vs : FlagVars) (f : FlagSetting) : FlagVars :=
  match vs with
  | mkFlagVars text sl s tl t url ver =>
      match f with
      | Flag_text v => mkFlagVars v sl s tl t url ver
      | Flag_source_lang v => mkFlagVars text v s tl t url ver
      | Flag_s v => mkFlagVars text sl v tl t url ver
      | Flag_target_lang v => mkFlagVars text sl s v t url ver
      | Flag_t v => mkFlagVars text sl s tl v url ver
      | Flag_url v => mkFlagVars text sl s tl t v ver
      | Flag_version b => mkFlagVars text sl s tl t url b
      | Flag_v b => mkFlagVars text sl s tl t url b
      end
  end.

Definition flag_Parse : M (FlagVars * list string) :=
  commandLine <- ask w_commandLine ;;
  match commandLine with
  | Rejected _ => emit Usage ;; os_Exit 2
  | HelpRequested => emit Usage ;; os_Exit 0
  | Accepted settings args => ret (fold_left setFlag settings flagDefaults, args)
  end.

(** ** Text to translate (main.go, lines 200-220) *)

Definition stdinPrompt : string :=
  "Enter text to translate (press Ctrl+D to finish input):".

Definition resolveInputText (textArg : string) (flag_Args : list string)
  : M string :=
  let inputText := "" in
  if nonEmpty textArg then ret textArg
  else if 0 <? Z.of_nat (List.length flag_Args) then
    ret (joinArgs (Z.of_nat (List.length flag_Args)) 0 flag_Args inputText)
  else
    fmt_Println stdinPrompt ;;
    input <- io_ReadAll_Stdin ;;
    match readErr input with
    | Some err => log_Fatalf ("failed to read standard input: " ++ err)
    | None =>
        let inputText := bytesRead input in
        ret (trimSuffix inputText LF)
    end.

(** ** [main] (main.go, lines 105-240) *)

Definition noTextMessage : string :=
  "No text provided for translation. Please use the -text flag or provide text via standard input.".

(** Lines 147-240: everything [main] does once the configuration [cfg] is
    in memory. *)
Definition mainWithConfig (cfg : Config) : M unit :=
  parsed <- flag_Parse ;;
  let (vars, flag_Args) := parsed in
  if versionFlag vars then
    fmt_Printf ("deeplx-cli version " ++ version ++ LF) ;;
    os_Exit 0
  else
    let finalURL := finalURL cfg (urlArg vars) in
    let finalSourceLang :=
      finalSourceLang cfg (sourceLangArg vars) (sourceLangShortArg vars) in
    let finalTargetLang :=
      finalTargetLang cfg (targetLangArg vars) (targetLangShortArg vars) in
    inputText <- resolveInputText (textArg vars) flag_Args ;;
    if (inputText =? "")%string then log_Fatalf noTextMessage
    else
      translated <- translateText inputText finalSourceLang finalTargetLang
                                  finalURL ;;
      match translated with
      | Err err => log_Fatalf ("Translation failed: " ++ err)
      | Ok translatedText =>
          clipErr <- clipboard_WriteAll translatedText ;;
          match clipErr with
          | Some _ => ret tt (* silent failure *)
          | None => ret tt (* silent success *)
          end ;;
          fmt_Printf (translatedText ++ LF)
      end.

(** Lines 105-145, followed by the rest. *)
Definition main : M unit :=
  currentUser <- user_Current ;;
  match currentUser with
  | Err err =>
      log_Fatalf ("failed to get current user home directory: " ++ err)
  | Ok homeDir =>
      configPath <- filepath_Join homeDir configFileName ;;
      cfg <- loadConfiguration configPath ;;
      mainWithConfig cfg
  end.

(** ** Observations on a finished run *)

Definition Run : Type := (list Event * Outcome unit)%type.

(** Returning from [main] ends the process with status 0. *)
Definition exitCode (r : Run) : Z :=
  match snd r with
  | Return _ => 0
  | Exit code => code
  end.

Fixpoint stdoutOf (t : list Event) : string :=
  match t with
  | [] => ""
  | Stdout s :: t => s ++ stdoutOf t
  | _ :: t => stdoutOf t
  end.

Definition isWriteFile (e : Event) : bool :=
  match e with WriteFile _ _ _ => true | _ => false end.
Definition isHttpPost (e : Event) : bool :=
  match e with HttpPost _ _ _ => true | _ => false end.

Definition fileWrites (t : list Event) : list Event := filter isWriteFile t.
Definition requests (t : list Event) : list Event := filter isHttpPost t.

(** The path of the configuration file and the values of the flag variables
    after [flag.Parse], as [main] computes them. *)
Definition configPathOf (w : World) (homeDir : string) : string :=
  w_filepath_Join w homeDir configFileName.

Definition flagVarsOf (settings : list FlagSetting) : FlagVars :=
  fold_left setFlag settings flagDefaults.

Definition notRequest (e : Event) : bool := negb (isHttpPost e).
Definition notFileWrite (e : Event) : bool := negb (isWriteFile e).
Definition notStdout (e : Event) : bool :=
  match e with Stdout _ => false | _ => true end.

(** [emitsOnly allowed m]: every event that [m] logs, in any world, is one
    of the allowed kind. *)
Definition emitsOnly {A : Type} (allowed : Event -> bool) (m : M A) : Prop :=
  forall w, forallb allowed (fst (m w)) = true.

(** ** Occurrences of flags on the command line *)

(** A string flag given the empty string. *)
Definition isEmptyStringFlag (f : FlagSetting) : bool :=
  match f with
  | Flag_text v | Flag_source_lang v | Flag_s v
  | Flag_target_lang v | Flag_t v | Flag_url v => (v =? "")%string
  | Flag_version _ | Flag_v _ => false
  end.

(** Two occurrences of one flag. *)
Definition sameFlag (f g : FlagSetting) : bool :=
  match f, g with
  | Flag_text _, Flag_text _
  | Flag_source_lang _, Flag_source_lang _
  | Flag_s _, Flag_s _
  | Flag_target_lang _, Flag_target_lang _
  | Flag_t _, Flag_t _
  | Flag_url _, Flag_url _
  | Flag_version _, Flag_version _
  | Flag_v _, Flag_v _ => true
  | _, _ => false
  end.

Definition absentFrom (f : FlagSetting) (settings : list FlagSetting) : bool :=
  forallb (fun g => negb (sameFlag f g)) settings.

(** The value of the variable that a string flag is bound to. *)
Definition boundValue (f : FlagSetting) (vs : FlagVars) : string :=
  match f with
  | Flag_text _ => textArg vs
  | Flag_source_lang _ => sourceLangArg vs
  | Flag_s _ => sourceLangShortArg vs
  | Flag_target_lang _ => targetLangArg vs
  | Flag_t _ => targetLangShortArg vs
  | Flag_url _ => urlArg vs
  | Flag_version _ | Flag_v _ => ""
  end.

(** ** Reference definitions, in the words of the specification *)

(** The first non-empty candidate, or the built-in default. *)
Fixpoint firstNonEmpty (candidates : list string) (builtin : string) : string :=
  match candidates with
  | [] => builtin
  | c :: rest => if (c =? "")%string then firstNonEmpty rest builtin else c
  end.

(** Removes one line feed from the end of the text, when there is one. *)
Fixpoint stripTrailingNewline (s : string) : string :=
  match s with
  | EmptyString => EmptyString
  | String c EmptyString =>
      if Ascii.eqb c (ascii_of_nat 10) then EmptyString else s
  | String c rest => String c (stripTrailingNewline rest)
  end.

(** The message of the error returned for a non-200 HTTP status
    (main.go, line 84). *)
Definition statusError (statusCode : Z) (body : string) : error :=
  "DeepLX API returned non-200 status: " ++ itoa statusCode ++ ", body: " ++ body.

(** The message of the error returned for a non-200 application code
    (main.go, line 99). *)
Definition codeError (code : Z) (message : string) : error :=
  "translation failed with code " ++ itoa code ++ ": " ++ message.

(** The outcomes of one call, by the first step that fails. *)
Inductive TranslateOutcome (w : World) (text sourceLang targetLang apiURL : string)
  : result string -> Prop :=
| MarshalFailed (err : error) :
    w_json_Marshal w (mkTranslationRequest text sourceLang targetLang) = Err err ->
    TranslateOutcome w text sourceLang targetLang apiURL
      (Err ("error marshalling request: " ++ err))
| TransportFailed (requestBody : string) (err : error) :
    w_json_Marshal w (mkTranslationRequest text sourceLang targetLang)
    = Ok requestBody ->
    w_http_Post w apiURL "application/json" requestBody = Err err ->
    TranslateOutcome w text sourceLang targetLang apiURL
      (Err ("error sending request to DeepLX API: " ++ err))
| BadStatus (requestBody : string) (resp : Response) :
    w_json_Marshal w (mkTranslationRequest text sourceLang targetLang)
    = Ok requestBody ->
    w_http_Post w apiURL "application/json" requestBody = Ok resp ->
    StatusCode resp <> 200 ->
    TranslateOutcome w text sourceLang targetLang apiURL
      (Err (statusError (StatusCode resp) (bytesRead (Body resp))))
| BodyUnreadable (requestBody : string) (resp : Response) (err : error) :
    w_json_Marshal w (mkTranslationRequest text sourceLang targetLang)
    = Ok requestBody ->
    w_http_Post w apiURL "application/json" requestBody = Ok resp ->
    StatusCode resp = 200 ->
    readErr (Body resp) = Some err ->
    TranslateOutcome w text sourceLang targetLang apiURL
      (Err ("error reading response body: " ++ err))
| DecodeFailed (requestBody : string) (resp : Response) (err : error) :
    w_json_Marshal w (mkTranslationRequest text sourceLang targetLang)
    = Ok requestBody ->
    w_http_Post w apiURL "application/json" requestBody = Ok resp ->
    StatusCode resp = 200 ->
    readErr (Body resp) = None ->
    w_json_Unmarshal w (bytesRead (Body resp)) = Err err ->
    TranslateOutcome w text sourceLang targetLang apiURL
      (Err ("error unmarshalling response: " ++ err))
| BadCode (requestBody : string) (resp : Response) (decoded : TranslationResponse) :
    w_json_Marshal w (mkTranslationRequest text sourceLang targetLang)
    = Ok requestBody ->
    w_http_Post w apiURL "application/json" requestBody = Ok resp ->
    StatusCode resp = 200 ->
    readErr (Body resp) = None ->
    w_json_Unmarshal w (bytesRead (Body resp)) = Ok decoded ->
    Code decoded <> 200 ->
    TranslateOutcome w text sourceLang targetLang apiURL
      (Err (codeError (Code decoded) (Message decoded)))
| Translated (requestBody : string) (resp : Response) (decoded : TranslationResponse) :
    w_json_Marshal w (mkTranslationRequest text sourceLang targetLang)
    = Ok requestBody ->
    w_http_Post w apiURL "application/json" requestBody = Ok resp ->
    StatusCode resp = 200 ->
    readErr (Body resp) = None ->
    w_json_Unmarshal w (bytesRead (Body resp)) = Ok decoded ->
    Code decoded = 200 ->
    TranslateOutcome w text sourceLang targetLang apiURL (Ok (Data decoded)).

Definition loadWarning (configPath : string) (err : error) : string :=
  "Warning: Failed to load or parse config file " ++ configPath
  ++ ", using default values or command-line arguments: " ++ err.

Definition writeWarning (configPath : string) (err : error) : string :=
  "Warning: Failed to write default config file " ++ configPath ++ ": " ++ err.

(** ** Worlds that differ in one answer *)

Definition withStat (w : World) (f : string -> StatResult) : World :=
  mkWorld (w_user_Current w) (w_filepath_Join w) f (w_yaml_Marshal w)
          (w_os_WriteFile w) (w_os_ReadFile w) (w_yaml_Unmarshal w)
          (w_commandLine w) (w_stdin w) (w_json_Marshal w) (w_http_Post w)
          (w_json_Unmarshal w) (w_clipboard_WriteAll w).

Definition withCommandLine (w : World) (c : CommandLine) : World :=
  mkWorld (w_user_Current w) (w_filepath_Join w) (w_os_Stat w) (w_yaml_Marshal w)
          (w_os_WriteFile w) (w_os_ReadFile w) (w_yaml_Unmarshal w)
          c (w_stdin w) (w_json_Marshal w) (w_http_Post w)
          (w_json_Unmarshal w) (w_clipboard_WriteAll w).

Definition withStdin (w : World) (input : ReadAllResult) : World :=
  mkWorld (w_user_Current w) (w_filepath_Join w) (w_os_Stat w) (w_yaml_Marshal w)
          (w_os_WriteFile w) (w_os_ReadFile w) (w_yaml_Unmarshal w)
          (w_commandLine w) input (w_json_Marshal w) (w_http_Post w)
          (w_json_Unmarshal w) (w_clipboard_WriteAll w).

Definition withPost (w : World)
    (f : string -> string -> string -> result Response) : World :=
  mkWorld (w_user_Current w) (w_filepath_Join w) (w_os_Stat w) (w_yaml_Marshal w)
          (w_os_WriteFile w) (w_os_ReadFile w) (w_yaml_Unmarshal w)
          (w_commandLine w) (w_stdin w) (w_json_Marshal w) f
          (w_json_Unmarshal w) (w_clipboard_WriteAll w).

Definition withDecoder (w : World)
    (f : string -> result TranslationResponse) : World :=
  mkWorld (w_user_Current w) (w_filepath_Join w) (w_os_Stat w) (w_yaml_Marshal w)
          (w_os_WriteFile w) (w_os_ReadFile w) (w_yaml_Unmarshal w)
          (w_commandLine w) (w_stdin w) (w_json_Marshal w) (w_http_Post w)
          f (w_clipboard_WriteAll w).

Definition withClipboard (w : World) (f : string -> option error) : World :=
  mkWorld (w_user_Current w) (w_filepath_Join w) (w_os_Stat w) (w_yaml_Marshal w)
          (w_os_WriteFile w) (w_os_ReadFile w) (w_yaml_Unmarshal w)
          (w_commandLine w) (w_stdin w) (w_json_Marshal w) (w_http_Post w)
          (w_json_Unmarshal w) f.

(** ** A concrete world, after the end-to-end test of main_test.go

    The configuration file exists and holds the test configuration; the
    command line is [-text "Test text" -url <stub> -s auto -t ZH]; the stub
    server answers every request with code 200 and a fixed translation. *)

Definition stubURL : string := "http://127.0.0.1:8080".

Definition stubWorld : World := {|
  w_user_Current := Ok "/home/user";
  w_filepath_Join := fun dir name => dir ++ "/" ++ name;
  w_os_Stat := fun _ => StatOk;
  w_yaml_Marshal := fun c =>
    Ok ("url: " ++ URL c ++ LF ++ "source_lang: " ++ SourceLang c ++ LF
        ++ "target_lang: " ++ TargetLang c ++ LF);
  w_os_WriteFile := fun _ _ _ => None;
  w_os_ReadFile := fun _ => Ok "url: http://localhost:8080";
  w_yaml_Unmarshal := fun _ => Ok (mkConfig "http://localhost:8080" "auto" "ZH");
  w_commandLine :=
    Accepted [Flag_text "Test text"; Flag_url stubURL; Flag_s "auto"; Flag_t "ZH"] [];
  w_stdin := mkReadAll "" None;
  w_json_Marshal := fun r =>
    Ok ("{text:" ++ req_Text r ++ ",source_lang:" ++ req_SourceLang r
        ++ ",target_lang:" ++ req_TargetLang r ++ "}");
  w_http_Post := fun _ _ _ => Ok (mkResponse 200 (mkReadAll "{code:200,data:X}" None));
  w_json_Unmarshal := fun _ => Ok (mkTranslationResponse 200 0 "" "X");
  w_clipboard_WriteAll := fun _ => None
|}.

(** No [-text], no positional argument and an empty standard input. *)
Definition silentWorld : World :=
  withStdin (withCommandLine stubWorld (Accepted [Flag_s "auto"; Flag_t "ZH"] []))
            (mkReadAll LF None).

(** The configuration file is absent: first run. *)
Definition firstRunWorld : World :=
  withStat stubWorld (fun _ => StatNotExist "no such file or directory").

(** The stub server answers with code 200 and no data. *)
Definition emptyAnswerWorld : World :=
  withDecoder stubWorld (fun _ => Ok (mkTranslationResponse 200 0 "" "")).

(** The network is down: [http.Post] fails before any response exists. *)
Definition offlineWorld : World :=
  withPost stubWorld (fun _ _ _ => Err "connection refused").

(** [os.Stat] fails on the configuration file for a reason other than its
    absence. *)
Definition statDeniedWorld : World :=
  withStat stubWorld (fun _ => StatErr "permission denied").

(** The configuration file exists and is not valid YAML. *)
Definition brokenConfigWorld : World :=
  mkWorld (w_user_Current stubWorld) (w_filepath_Join stubWorld)
          (w_os_Stat stubWorld) (w_yaml_Marshal stubWorld)
          (w_os_WriteFile stubWorld) (w_os_ReadFile stubWorld)
          (fun _ => Err "yaml: line 1: did not find expected key")
          (w_commandLine stubWorld) (w_stdin stubWorld)
          (w_json_Marshal stubWorld) (w_http_Post stubWorld)
          (w_json_Unmarshal stubWorld) (w_clipboard_WriteAll stubWorld).

(** ** Further observations on traces and runs *)

Definition isClipboardWrite (e : Event) : bool :=
  match e with ClipboardWrite _ => true | _ => false end.
Definition notClipboardWrite (e : Event) : bool := negb (isClipboardWrite e).

Definition clipboardWrites (t : list Event) : list Event :=
  filter isClipboardWrite t.
Definition withoutClipboard (t : list Event) : list Event :=
  filter notClipboardWrite t.

(** [traceAll P m]: in any world [w], every event that [m] logs satisfies
    [P w]. *)
Definition traceAll {A : Type} (P : World -> Event -> Prop) (m : M A) : Prop :=
  forall w, Forall (P w) (fst (m w)).

(** [exitsOnly P m]: in any world [w], when [m] ends the process it does so
    with a status that satisfies [P w]. *)
Definition exitsOnly {A : Type} (P : World -> Z -> Prop) (m : M A) : Prop :=
  forall w, match snd (m w) with
            | Exit code => P w code
            | Return _ => True
            end.


(** [sameButClipboard m0 m]: in any world, [m0] runs as [m] does, less the
    clipboard writes. *)
Definition sameButClipboard {A : Type} (m0 m : M A) : Prop :=
  forall w, m0 w = (withoutClipboard (fst (m w)), snd (m w)).

(** The statuses [main] can end with: 2 is for a rejected command line. *)
Definition exitStatus (w : World) (code : Z) : Prop :=
  code = 0 \/ code = 1
  \/ (code = 2 /\ exists err, w_commandLine w = Rejected err).


(** Two flags bound to one variable: two occurrences of one flag, or
    [-version] and [-v] (main.go, lines 162-163). *)
Definition sameVariable (f g : FlagSetting) : bool :=
  match f, g with
  | Flag_version _, Flag_v _ | Flag_v _, Flag_version _ => true
  | _, _ => sameFlag f g
  end.

(** ** The earlier revision of [main] (part_000, lines 103-233)

    It differs from main.go in two places: it calls its own [trimSuffix]
    where main.go calls [strings.TrimSuffix], and it has no clipboard write.
    [loadConfig] and [translateText] are the same text in both files. *)

Definition mainWithConfig_part000 (cfg : Config) : M unit :=
  parsed <- flag_Parse ;;
  let (vars, flag_Args) := parsed in
  if versionFlag vars then
    fmt_Printf ("deeplx-cli version " ++ version ++ LF) ;;
    os_Exit 0
  else
    let finalURL := finalURL cfg (urlArg vars) in
    let finalSourceLang :=
      finalSourceLang cfg (sourceLangArg vars) (sourceLangShortArg vars) in
    let finalTargetLang :=
      finalTargetLang cfg (targetLangArg vars) (targetLangShortArg vars) in
    inputText <- resolveInputText (textArg vars) flag_Args ;;
    if (inputText =? "")%string then log_Fatalf noTextMessage
    else
      translated <- translateText inputText finalSourceLang finalTargetLang
                                  finalURL ;;
      match translated with
      | Err err => log_Fatalf ("Translation failed: " ++ err)
      | Ok translatedText => fmt_Printf (translatedText ++ LF)
      end.

Definition main_part000 : M unit :=
  currentUser <- user_Current ;;
  match currentUser with
  | Err err =>
      log_Fatalf ("failed to get current user home directory: " ++ err)
  | Ok homeDir =>
      configPath <- filepath_Join homeDir configFileName ;;
      cfg <- loadConfiguration configPath ;;
      mainWithConfig_part000 cfg
  end.

(** ** Further concrete worlds *)

(** Standard input cannot be read. *)
Definition brokenStdinWorld : World :=
  withStdin (withCommandLine stubWorld (Accepted [] []))
            (mkReadAll "" (Some "read /dev/stdin: input/output error")).

(** [-version] on a first run, with no network. *)
Definition versionWorld : World :=
  withCommandLine (withPost firstRunWorld (fun _ _ _ => Err "connection refused"))
                  (Accepted [Flag_version true] ["ignored"]).

(** The stub server answers with an application error. *)
Definition quotaWorld : World :=
  withDecoder stubWorld
    (fun _ => Ok (mkTranslationResponse 429 0 "too many requests" "")).

(** ** Strings *)

Module Str.

Lemma append_nil_r (s : string) : s ++ "" = s.
Proof. induction s as [|c s IH]; simpl; [reflexivity | now rewrite IH]. Qed.

Lemma append_assoc (s t u : string) : (s ++ t) ++ u = s ++ (t ++ u).
Proof. induction s as [|c s IH]; simpl; [reflexivity | now rewrite IH]. Qed.

Lemma length_append (s t : string) :
  String.length (s ++ t) = (String.length s + String.length t)%nat.
Proof. induction s as [|c s IH]; simpl; [reflexivity | now rewrite IH]. Qed.

Lemma substring_all (s : string) : substring 0 (String.length s) s = s.
Proof. induction s as [|c s IH]; simpl; [reflexivity | now rewrite IH]. Qed.

Lemma substring_prefix (s t : string) :
  substring 0 (String.length s) (s ++ t) = s.
Proof.
  induction s as [|c s IH]; simpl.
  - now destruct t.
  - now rewrite IH.
Qed.

Lemma substring_suffix (s t : string) :
  substring (String.length s) (String.length t) (s ++ t) = t.
Proof.
  induction s as [|c s IH]; simpl.
  - apply substring_all.
  - exact IH.
Qed.

(** Every prefix/suffix split of a string rebuilds it. *)
Lemma substring_split (s : string) (n : nat) :
  (n <= String.length s)%nat ->
  substring 0 n s ++ substring n (String.length s - n) s = s.
Proof.
  revert n; induction s as [|c s IH]; intros [|n] Hn; simpl in *;
    try reflexivity; try lia.
  - now rewrite substring_all.
  - rewrite IH by lia. reflexivity.
Qed.

End Str.

(** ** Tactics for runs *)

Ltac case_step :=
  match goal with
  | |- context [match ?x with _ => _ end] =>
      lazymatch x with
      | context [match _ with _ => _ end] => fail
      | _ => destruct x eqn:?
      end
  end.

Ltac run_cases := simpl; repeat (case_step; simpl); try reflexivity.

Ltac unfold_calls :=
  cbv beta iota delta
    [bind ret ask emit os_Exit log_Printf log_Fatalf fmt_Printf
     fmt_Println user_Current filepath_Join os_Stat yaml_Marshal
     os_WriteFile os_ReadFile yaml_Unmarshal io_ReadAll_Stdin json_Marshal
     http_Post json_Unmarshal clipboard_WriteAll].

(** ** [trimSuffix] *)

Lemma trimSuffix_app (s suffix : string) : trimSuffix (s ++ suffix) suffix = s.
Proof.
  unfold trimSuffix, sliceFrom, sliceTo.
  rewrite Str.length_append.
  replace (String.length s + String.length suffix - String.length suffix)%nat
    with (String.length s) by lia.
  replace (String.length s + String.length suffix - String.length s)%nat
    with (String.length suffix) by lia.
  rewrite Str.substring_suffix, String.eqb_refl, Str.substring_prefix.
  destruct (Nat.leb_spec (String.length suffix)
                         (String.length s + String.length suffix)); [reflexivity | lia].
Qed.

Lemma trimSuffix_no_suffix (s suffix : string) :
  (forall s', s <> s' ++ suffix) -> trimSuffix s suffix = s.
Proof.
  intros Hno. unfold trimSuffix, sliceFrom, sliceTo.
  destruct (Nat.leb_spec (String.length suffix) (String.length s)) as [Hle|Hlt];
    simpl; [|reflexivity].
  destruct (String.eqb_spec
              (substring (String.length s - String.length suffix)
                 (String.length s - (String.length s - String.length suffix)) s)
              suffix) as [Heq|Hne]; [|reflexivity].
  exfalso.
  apply (Hno (substring 0 (String.length s - String.length suffix) s)).
  pose proof (Str.substring_split s (String.length s - String.length suffix))
    as Hsplit.
  rewrite Heq in Hsplit. symmetry. apply Hsplit. lia.
Qed.

Lemma stripTrailingNewline_cases (s : string) :
  (exists s', s = s' ++ LF /\ stripTrailingNewline s = s')
  \/ ((forall s', s <> s' ++ LF) /\ stripTrailingNewline s = s).
Proof.
  induction s as [|c s IH].
  - right. split; [|reflexivity]. intros [|c' s'] H; simpl in H; discriminate.
  - destruct s as [|d s].
    + simpl. destruct (Ascii.eqb_spec c (ascii_of_nat 10)) as [->|Hc].
      * left. exists "". split; reflexivity.
      * right. split; [|reflexivity].
        intros [|c' [|c'' s']] H; simpl in H; try discriminate.
        injection H as H. now apply Hc.
    + destruct IH as [(s' & Hs & Hstrip) | (Hno & Hstrip)].
      * left. exists (String c s'). split.
        -- simpl. now rewrite <- Hs.
        -- change (String c (stripTrailingNewline (String d s)) = String c s').
           now rewrite Hstrip.
      * right. split.
        -- intros [|c' s'] H; simpl in H; [discriminate|].
           injection H as _ H. now apply (Hno s').
        -- change (String c (stripTrailingNewline (String d s)) = String c (String d s)).
           now rewrite Hstrip.
Qed.

(** The function of the code removes exactly one trailing line feed. *)
Lemma trimSuffix_LF (s : string) : trimSuffix s LF = stripTrailingNewline s.
Proof.
  destruct (stripTrailingNewline_cases s) as [(s' & -> & ->) | (Hno & ->)].
  - apply trimSuffix_app.
  - now apply trimSuffix_no_suffix.
Qed.

(** ** The loop over the positional arguments *)

Lemma joinArgs_cons (n i : Z) (arg : string) (rest : list string) (acc : string) :
  joinArgs n i (arg :: rest) acc =
  joinArgs n (i + 1) rest
    (if i <? n - 1 then (acc ++ arg) ++ " " else acc ++ arg).
Proof. reflexivity. Qed.

Lemma joinArgs_concat (args : list string) :
  forall (n i : Z) (acc : string),
    i + Z.of_nat (List.length args) = n ->
    joinArgs n i args acc = acc ++ String.concat " " args.
Proof.
  induction args as [|arg rest IH]; intros n i acc Hn.
  - simpl. now rewrite Str.append_nil_r.
  - destruct rest as [|r rs].
    + simpl in *. destruct (Z.ltb_spec i (n - 1)); [lia | reflexivity].
    + rewrite joinArgs_cons.
      destruct (Z.ltb_spec i (n - 1)) as [_|Hge].
      * rewrite IH by (cbn [List.length] in *; lia).
        change (String.concat " " (arg :: r :: rs))
          with (arg ++ " " ++ String.concat " " (r :: rs)).
        now rewrite !Str.append_assoc.
      * cbn [List.length] in Hn. lia.
Qed.

Lemma joinArgs_all (args : list string) :
  joinArgs (Z.of_nat (List.length args)) 0 args "" = String.concat " " args.
Proof. now rewrite joinArgs_concat by lia. Qed.

Lemma nonEmpty_true (s : string) : s <> "" -> nonEmpty s = true.
Proof. unfold nonEmpty. now destruct (String.eqb_spec s ""). Qed.

(** ** Resolution of the input text *)

(** With no text from the flag, the positional arguments come first and
    standard input last. *)
Lemma resolveInputText_without_flag (w : World) (args : list string) :
  (args <> [] ->
   resolveInputText "" args w = ([], Return (String.concat " " args)))
  /\ (args = [] -> readErr (w_stdin w) = None ->
      resolveInputText "" args w =
      ([Stdout (stdinPrompt ++ LF)],
       Return (stripTrailingNewline (bytesRead (w_stdin w))))).
Proof.
  unfold resolveInputText. split.
  - intros Hargs. simpl.
    destruct args as [|a rest]; [contradiction|].
    change (0 <? Z.of_nat (List.length (a :: rest))) with true.
    cbv iota. unfold ret. now rewrite joinArgs_all.
  - intros -> Hread. simpl.
    unfold bind, fmt_Println, emit, io_ReadAll_Stdin, ask, ret. simpl.
    rewrite Hread. simpl. now rewrite trimSuffix_LF.
Qed.

(** C2. The input text is the value of [-text] when it is not empty;
    otherwise, when there is a positional argument, the positional arguments
    joined by single spaces in their order; otherwise standard input read to
    its end, less one trailing line feed when there is one. *)
Theorem input_text_resolution
    (w : World) (textArg : string) (args : list string) :
  (textArg <> "" ->
   resolveInputText textArg args w = ([], Return textArg))
  /\ (textArg = "" -> args <> [] ->
      resolveInputText textArg args w = ([], Return (String.concat " " args)))
  /\ (textArg = "" -> args = [] -> readErr (w_stdin w) = None ->
      resolveInputText textArg args w =
      ([Stdout (stdinPrompt ++ LF)],
       Return (stripTrailingNewline (bytesRead (w_stdin w))))).
Proof.
  split; [|split].
  - intros Htext. unfold resolveInputText.
    now rewrite (nonEmpty_true _ Htext).
  - intros -> Hargs.
    now apply (proj1 (resolveInputText_without_flag w args)).
  - intros -> Hargs Hread.
    now apply (proj2 (resolveInputText_without_flag w args)).
Qed.

Lemma input_text_resolution_witness :
  resolveInputText "Test text" ["ignored"] stubWorld = ([], Return "Test text")
  /\ resolveInputText "" ["Hello,"; "wide"; "world!"] stubWorld
     = ([], Return "Hello, wide world!")
  /\ resolveInputText "" [] (withStdin stubWorld (mkReadAll ("Hi" ++ LF) None))
     = ([Stdout (stdinPrompt ++ LF)], Return "Hi").
Proof.
  split; [|split].
  - apply (proj1 (input_text_resolution stubWorld "Test text" ["ignored"])).
    discriminate.
  - apply (proj1 (proj2 (input_text_resolution stubWorld ""
                           ["Hello,"; "wide"; "world!"]))).
    + reflexivity.
    + discriminate.
  - apply (proj2 (proj2 (input_text_resolution
                           (withStdin stubWorld (mkReadAll ("Hi" ++ LF) None))
                           "" []))); reflexivity.
Defined.

(** ** Precedence of flags, configuration and defaults *)

(** C3. The effective source (target) language is the long-form flag value
    when not empty, else the shorthand value when not empty, else the
    configuration value when not empty, else ["auto"] (["EN"]); the shorthand
    value is used only when the long-form value is empty. *)
Theorem language_precedence
    (cfg : Config) (long short : string) :
  finalSourceLang cfg long short
  = firstNonEmpty [long; short; SourceLang cfg] "auto"
  /\ finalTargetLang cfg long short
     = firstNonEmpty [long; short; TargetLang cfg] "EN"
  /\ (long <> "" ->
      finalSourceLang cfg long short = long
      /\ finalTargetLang cfg long short = long)
  /\ (long = "" -> short <> "" ->
      finalSourceLang cfg long short = short
      /\ finalTargetLang cfg long short = short).
Proof.
  unfold finalSourceLang, finalTargetLang, nonEmpty; cbn [firstNonEmpty].
  split; [|split; [|split]].
  - destruct (long =? "")%string, (short =? "")%string; reflexivity.
  - destruct (long =? "")%string, (short =? "")%string; reflexivity.
  - intros Hlong. destruct (String.eqb_spec long ""); [contradiction|].
    split; reflexivity.
  - intros -> Hshort. simpl.
    destruct (String.eqb_spec short ""); [contradiction|].
    split; reflexivity.
Qed.

Lemma language_precedence_witness :
  finalSourceLang (mkConfig "" "DE" "FR") "JA" "ZH" = "JA"
  /\ finalTargetLang (mkConfig "" "DE" "FR") "" "ZH" = "ZH".
Proof.
  split.
  - apply (proj1 (proj2 (proj2 (language_precedence
                                  (mkConfig "" "DE" "FR") "JA" "ZH")))).
    discriminate.
  - apply (proj2 (proj2 (proj2 (language_precedence
                                  (mkConfig "" "DE" "FR") "" "ZH")))).
    + reflexivity.
    + discriminate.
Defined.

(** C4. The effective URL is the [-url] flag value when not empty, else the
    configuration value when not empty, else the built-in default; a
    non-empty flag value wins whatever the configuration holds. *)
Theorem url_precedence (cfg : Config) (urlArg : string) :
  finalURL cfg urlArg = firstNonEmpty [urlArg; URL cfg] defaultDeepLXAPI
  /\ (urlArg <> "" -> finalURL cfg urlArg = urlArg).
Proof.
  unfold finalURL, firstNonEmpty, nonEmpty. split.
  - destruct (urlArg =? "")%string, (URL cfg =? "")%string; reflexivity.
  - intros H. now destruct (String.eqb_spec urlArg "").
Qed.

Lemma url_precedence_witness :
  finalURL (mkConfig "http://localhost:8080" "auto" "ZH") stubURL = stubURL.
Proof.
  apply (proj2 (url_precedence (mkConfig "http://localhost:8080" "auto" "ZH")
                               stubURL)).
  discriminate.
Defined.

(** ** Traces *)

Lemma fileWrites_app (t u : list Event) :
  fileWrites (t ++ u) = (fileWrites t ++ fileWrites u)%list.
Proof. apply filter_app. Qed.

Lemma requests_app (t u : list Event) :
  requests (t ++ u) = (requests t ++ requests u)%list.
Proof. apply filter_app. Qed.

Lemma stdoutOf_app (t u : list Event) :
  stdoutOf (t ++ u) = stdoutOf t ++ stdoutOf u.
Proof.
  induction t as [|e t IH]; [reflexivity|].
  destruct e; simpl; rewrite ?IH, ?Str.append_assoc; reflexivity.
Qed.

Lemma filter_none {A : Type} (p : A -> bool) (l : list A) :
  forallb (fun x => negb (p x)) l = true -> filter p l = [].
Proof.
  induction l as [|x l IH]; simpl; [reflexivity|].
  destruct (p x); simpl; [discriminate | exact IH].
Qed.

(** ** The monad *)

Lemma bind_Return {A B : Type} (m : M A) (k : A -> M B) (w : World)
    (t : list Event) (a : A) :
  m w = (t, Return a) ->
  bind m k w = ((t ++ fst (k a w))%list, snd (k a w)).
Proof. unfold bind. intros ->. now destruct (k a w). Qed.

Lemma bind_Exit {A B : Type} (m : M A) (k : A -> M B) (w : World)
    (t : list Event) (code : Z) :
  m w = (t, Exit code) -> bind m k w = (t, Exit code).
Proof. unfold bind. now intros ->. Qed.

(** Two worlds that a computation and its continuation cannot tell apart
    give the same run. *)
Lemma bind_congr {A B : Type} (m : M A) (k : A -> M B) (w1 w2 : World) :
  m w1 = m w2 -> (forall a, k a w1 = k a w2) -> bind m k w1 = bind m k w2.
Proof.
  unfold bind. intros -> Hk.
  destruct (m w2) as [t [a|code]]; [rewrite Hk|]; reflexivity.
Qed.

(** ** Computations that log only events of a given kind *)

Section EmitsOnly.
Variable allowed : Event -> bool.

Lemma emitsOnly_ret {A : Type} (a : A) : emitsOnly allowed (ret a).
Proof. intros w. reflexivity. Qed.

Lemma emitsOnly_ask {A : Type} (f : World -> A) : emitsOnly allowed (ask f).
Proof. intros w. reflexivity. Qed.

Lemma emitsOnly_exit {A : Type} (code : Z) :
  emitsOnly allowed (@os_Exit A code).
Proof. intros w. reflexivity. Qed.

Lemma emitsOnly_emit (e : Event) :
  allowed e = true -> emitsOnly allowed (emit e).
Proof. intros H w. simpl. now rewrite H. Qed.

Lemma emitsOnly_bind {A B : Type} (m : M A) (k : A -> M B) :
  emitsOnly allowed m -> (forall a, emitsOnly allowed (k a)) ->
  emitsOnly allowed (bind m k).
Proof.
  intros Hm Hk w. unfold bind. specialize (Hm w).
  destruct (m w) as [t [a|code]]; simpl in *; [|exact Hm].
  specialize (Hk a w). destruct (k a w) as [t' o]. simpl in *.
  now rewrite forallb_app, Hm, Hk.
Qed.

End EmitsOnly.

Ltac emits_only :=
  repeat first
    [ apply emitsOnly_ret
    | apply emitsOnly_ask
    | apply emitsOnly_exit
    | apply emitsOnly_emit; reflexivity
    | apply emitsOnly_bind; [|intros ?]
    | match goal with
      | |- emitsOnly _ (match ?x with _ => _ end) => destruct x
      end
    | progress unfold log_Printf, log_Fatalf, fmt_Printf, fmt_Println,
        user_Current, filepath_Join, os_Stat, yaml_Marshal, os_ReadFile,
        yaml_Unmarshal, io_ReadAll_Stdin, json_Marshal, json_Unmarshal,
        os_WriteFile, http_Post, clipboard_WriteAll ].

Lemma loadConfiguration_no_request (configPath : string) :
  emitsOnly notRequest (loadConfiguration configPath).
Proof. unfold loadConfiguration, loadConfig. emits_only. Qed.

Lemma flag_Parse_no_effect_on_files_or_network (allowed : Event -> bool) :
  allowed Usage = true -> emitsOnly allowed flag_Parse.
Proof.
  intros H. unfold flag_Parse. emits_only; now apply emitsOnly_emit.
Qed.

Lemma resolveInputText_no_request (textArg : string) (args : list string) :
  emitsOnly notRequest (resolveInputText textArg args).
Proof. unfold resolveInputText. emits_only. Qed.

Lemma resolveInputText_no_write (textArg : string) (args : list string) :
  emitsOnly notFileWrite (resolveInputText textArg args).
Proof. unfold resolveInputText. emits_only. Qed.

Lemma translateText_no_write (text sourceLang targetLang apiURL : string) :
  emitsOnly notFileWrite (translateText text sourceLang targetLang apiURL).
Proof. unfold translateText. emits_only. Qed.

(** ** Runs of [main] *)

Section MainReachesInput.
Variables (w : World) (homeDir : string) (cfg : Config)
          (settings : list FlagSetting) (args : list string)
          (inputText : string) (t1 t2 : list Event).
Hypothesis Huser : w_user_Current w = Ok homeDir.
Hypothesis Hload :
  loadConfiguration (configPathOf w homeDir) w = (t1, Return cfg).
Hypothesis Hflags : w_commandLine w = Accepted settings args.
Hypothesis Hversion : versionFlag (flagVarsOf settings) = false.
Hypothesis Hinput :
  resolveInputText (textArg (flagVarsOf settings)) args w = (t2, Return inputText).

Let vars := flagVarsOf settings.
Let sourceLang :=
  finalSourceLang cfg (sourceLangArg vars) (sourceLangShortArg vars).
Let targetLang :=
  finalTargetLang cfg (targetLangArg vars) (targetLangShortArg vars).
Let apiURL := finalURL cfg (urlArg vars).

Lemma main_empty_input :
  inputText = "" ->
  main w = ((t1 ++ t2 ++ [Log noTextMessage])%list, Exit 1).
Proof.
  intros ->. unfold main.
  erewrite bind_Return by (unfold user_Current, ask; rewrite Huser; reflexivity).
  cbv iota.
  erewrite bind_Return by reflexivity.
  erewrite bind_Return by apply Hload.
  unfold mainWithConfig.
  erewrite bind_Return by (unfold flag_Parse, bind, ask; rewrite Hflags; reflexivity).
  cbv beta iota. fold (flagVarsOf settings). rewrite Hversion.
  erewrite bind_Return by apply Hinput.
  reflexivity.
Qed.

Lemma main_translation_failed (t3 : list Event) (err : error) :
  inputText <> "" ->
  translateText inputText sourceLang targetLang apiURL w = (t3, Return (Err err)) ->
  main w
  = ((t1 ++ t2 ++ t3 ++ [Log ("Translation failed: " ++ err)])%list, Exit 1).
Proof.
  intros Hne Htr. unfold main.
  erewrite bind_Return by (unfold user_Current, ask; rewrite Huser; reflexivity).
  cbv iota.
  erewrite bind_Return by reflexivity.
  erewrite bind_Return by apply Hload.
  unfold mainWithConfig.
  erewrite bind_Return by (unfold flag_Parse, bind, ask; rewrite Hflags; reflexivity).
  cbv beta iota. fold (flagVarsOf settings). rewrite Hversion.
  erewrite bind_Return by apply Hinput.
  destruct (String.eqb_spec inputText ""); [contradiction|].
  erewrite bind_Return by apply Htr.
  reflexivity.
Qed.

Lemma main_translated (t3 : list Event) (translatedText : string) :
  inputText <> "" ->
  translateText inputText sourceLang targetLang apiURL w
  = (t3, Return (Ok translatedText)) ->
  main w
  = ((t1 ++ t2 ++ t3
      ++ [ClipboardWrite translatedText; Stdout (translatedText ++ LF)])%list,
     Return tt).
Proof.
  intros Hne Htr. unfold main.
  erewrite bind_Return by (unfold user_Current, ask; rewrite Huser; reflexivity).
  cbv iota.
  erewrite bind_Return by reflexivity.
  erewrite bind_Return by apply Hload.
  unfold mainWithConfig.
  erewrite bind_Return by (unfold flag_Parse, bind, ask; rewrite Hflags; reflexivity).
  cbv beta iota. fold (flagVarsOf settings). rewrite Hversion.
  erewrite bind_Return by apply Hinput.
  destruct (String.eqb_spec inputText ""); [contradiction|].
  erewrite bind_Return by apply Htr.
  cbv beta iota.
  unfold clipboard_WriteAll, fmt_Printf, bind, emit, ask, ret. simpl.
  destruct (w_clipboard_WriteAll w translatedText); reflexivity.
Qed.

End MainReachesInput.

Lemma loadConfiguration_no_stdout (configPath : string) :
  emitsOnly notStdout (loadConfiguration configPath).
Proof. unfold loadConfiguration, loadConfig. emits_only. Qed.

Lemma stdoutOf_silent (t : list Event) :
  forallb notStdout t = true -> stdoutOf t = "".
Proof.
  induction t as [|e t IH]; [reflexivity|].
  destruct e; simpl; try exact IH. discriminate.
Qed.

Lemma resolveInputText_no_prompt
    (w : World) (textArg : string) (args : list string) :
  textArg <> "" \/ args <> [] -> fst (resolveInputText textArg args w) = [].
Proof.
  unfold resolveInputText, nonEmpty. intros H.
  destruct (String.eqb_spec textArg "") as [->|Hne]; [|reflexivity].
  destruct H as [H|H]; [contradiction|].
  destruct args; [contradiction | reflexivity].
Qed.

(** ** Empty input *)

(** C6. When the resolved input text is empty, the process ends with status
    1 after logging a diagnostic, and no translation request has been sent. *)
Theorem empty_input_is_fatal
    (w : World) (homeDir : string) (cfg : Config)
    (settings : list FlagSetting) (args : list string) (t1 t2 : list Event) :
  w_user_Current w = Ok homeDir ->
  loadConfiguration (configPathOf w homeDir) w = (t1, Return cfg) ->
  w_commandLine w = Accepted settings args ->
  versionFlag (flagVarsOf settings) = false ->
  resolveInputText (textArg (flagVarsOf settings)) args w = (t2, Return "") ->
  main w = ((t1 ++ t2 ++ [Log noTextMessage])%list, Exit 1)
  /\ exitCode (main w) = 1
  /\ requests (fst (main w)) = [].
Proof.
  intros Huser Hload Hflags Hversion Hinput.
  rewrite (main_empty_input w homeDir cfg settings args "" t1 t2
             Huser Hload Hflags Hversion Hinput eq_refl).
  split; [reflexivity | split; [reflexivity|]].
  cbn [fst]. rewrite !requests_app.
  pose proof (loadConfiguration_no_request (configPathOf w homeDir) w) as H1.
  pose proof (resolveInputText_no_request
                (textArg (flagVarsOf settings)) args w) as H2.
  rewrite Hload in H1. rewrite Hinput in H2. cbn [fst] in H1, H2.
  unfold requests. rewrite (filter_none _ _ H1), (filter_none _ _ H2).
  reflexivity.
Qed.

Lemma empty_input_is_fatal_witness :
  main silentWorld
  = ([Stdout (stdinPrompt ++ LF); Log noTextMessage], Exit 1)
  /\ exitCode (main silentWorld) = 1
  /\ requests (fst (main silentWorld)) = [].
Proof.
  apply (empty_input_is_fatal silentWorld "/home/user"
           (mkConfig "http://localhost:8080" "auto" "ZH")
           [Flag_s "auto"; Flag_t "ZH"] [] [] [Stdout (stdinPrompt ++ LF)]);
    reflexivity.
Defined.

(** ** The clipboard *)

(** Everything before the clipboard write is blind to the clipboard. *)

Lemma loadConfiguration_withClipboard
    (configPath : string) (w : World) (f : string -> option error) :
  loadConfiguration configPath (withClipboard w f) = loadConfiguration configPath w.
Proof. unfold loadConfiguration, loadConfig. unfold_calls. run_cases. Qed.

Lemma flag_Parse_withClipboard (w : World) (f : string -> option error) :
  flag_Parse (withClipboard w f) = flag_Parse w.
Proof. unfold flag_Parse. unfold_calls. run_cases. Qed.

Lemma resolveInputText_withClipboard
    (textArg : string) (args : list string) (w : World)
    (f : string -> option error) :
  resolveInputText textArg args (withClipboard w f)
  = resolveInputText textArg args w.
Proof. unfold resolveInputText. unfold_calls. run_cases. Qed.

Lemma translateText_withClipboard
    (text sourceLang targetLang apiURL : string) (w : World)
    (f : string -> option error) :
  translateText text sourceLang targetLang apiURL (withClipboard w f)
  = translateText text sourceLang targetLang apiURL w.
Proof. unfold translateText. unfold_calls. run_cases. Qed.

(** C7. Two runs that differ only in the answer of the clipboard, success
    or failure, are the same run: they print the same text on standard output
    and end with the same status. *)
Theorem clipboard_failure_is_swallowed
    (w : World) (f g : string -> option error) :
  main (withClipboard w f) = main (withClipboard w g)
  /\ stdoutOf (fst (main (withClipboard w f)))
     = stdoutOf (fst (main (withClipboard w g)))
  /\ exitCode (main (withClipboard w f)) = exitCode (main (withClipboard w g)).
Proof.
  assert (Hrun : main (withClipboard w f) = main (withClipboard w g)).
  { unfold main, mainWithConfig.
    repeat first
      [ reflexivity
      | apply bind_congr;
        [ first [ reflexivity
                | now rewrite !loadConfiguration_withClipboard
                | now rewrite !flag_Parse_withClipboard
                | now rewrite !resolveInputText_withClipboard
                | now rewrite !translateText_withClipboard ]
        | intros ?; cbv beta ]
      | match goal with
        | |- (match ?x with _ => _ end) _ = _ => destruct x
        end ].
    unfold clipboard_WriteAll, bind, emit, ask, withClipboard; simpl.
    match goal with
    | |- context [f ?text] => destruct (f text), (g text); reflexivity
    end. }
  now rewrite Hrun.
Qed.

(** ** Writes to the configuration file *)

Lemma loadConfiguration_fileWrites (configPath : string) (w : World) :
  fileWrites (fst (loadConfiguration configPath w))
  = match w_os_Stat w configPath with
    | StatNotExist _ =>
        match w_yaml_Marshal w defaultConfig with
        | Ok yamlData => [WriteFile configPath yamlData 420]
        | Err _ => []
        end
    | _ => []
    end.
Proof. unfold loadConfiguration, loadConfig. unfold_calls. run_cases. Qed.

Lemma mainWithConfig_no_write (cfg : Config) :
  emitsOnly notFileWrite (mainWithConfig cfg).
Proof.
  unfold mainWithConfig.
  apply emitsOnly_bind;
    [apply flag_Parse_no_effect_on_files_or_network; reflexivity|].
  intros [vars flag_Args]. destruct (versionFlag vars); [emits_only|].
  apply emitsOnly_bind; [apply resolveInputText_no_write|]. intros inputText.
  destruct (inputText =? "")%string; [emits_only|].
  apply emitsOnly_bind; [apply translateText_no_write|].
  intros translated. emits_only.
Qed.

Lemma main_fileWrites (w : World) :
  fileWrites (fst (main w))
  = match w_user_Current w with
    | Ok homeDir => fileWrites (fst (loadConfiguration (configPathOf w homeDir) w))
    | Err _ => []
    end.
Proof.
  unfold main, user_Current, filepath_Join.
  destruct (w_user_Current w) as [homeDir|err] eqn:Huser.
  - erewrite bind_Return by (unfold ask; rewrite Huser; reflexivity).
    cbv iota. erewrite bind_Return by reflexivity. cbn [fst snd app].
    fold (configPathOf w homeDir).
    destruct (loadConfiguration (configPathOf w homeDir) w)
      as [t1 [cfg|code]] eqn:Hload.
    + erewrite bind_Return by exact Hload.
      cbn [fst]. rewrite fileWrites_app.
      unfold fileWrites at 2.
      rewrite (filter_none _ _ (mainWithConfig_no_write cfg w)).
      apply app_nil_r.
    + erewrite bind_Exit by exact Hload. reflexivity.
  - erewrite bind_Return by (unfold ask; rewrite Huser; reflexivity).
    reflexivity.
Qed.

(** C8. [main] writes the configuration file only when [os.Stat] reports it
    absent, and then once, with the default document; when the file exists
    nothing is written, whatever reading and parsing it give; no run writes
    it twice. *)
Theorem config_written_only_when_absent (w : World) (homeDir : string) :
  w_user_Current w = Ok homeDir ->
  (forall e, In e (fileWrites (fst (main w))) ->
     exists err, w_os_Stat w (configPathOf w homeDir) = StatNotExist err)
  /\ (forall err yamlData,
        w_os_Stat w (configPathOf w homeDir) = StatNotExist err ->
        w_yaml_Marshal w defaultConfig = Ok yamlData ->
        fileWrites (fst (main w))
        = [WriteFile (configPathOf w homeDir) yamlData 420])
  /\ (w_os_Stat w (configPathOf w homeDir) = StatOk ->
      fileWrites (fst (main w)) = [])
  /\ (List.length (fileWrites (fst (main w))) <= 1)%nat.
Proof.
  intros Huser.
  rewrite main_fileWrites, Huser, loadConfiguration_fileWrites.
  split; [|split; [|split]].
  - intros e He.
    destruct (w_os_Stat w (configPathOf w homeDir)) as [|err|err];
      [destruct He | now exists err | destruct He].
  - intros err yamlData -> ->. reflexivity.
  - intros ->. reflexivity.
  - destruct (w_os_Stat w (configPathOf w homeDir)) as [|err|err];
      [simpl; lia | | simpl; lia].
    destruct (w_yaml_Marshal w defaultConfig); simpl; lia.
Qed.

Lemma config_written_only_when_absent_witness :
  fileWrites (fst (main firstRunWorld))
  = [WriteFile "/home/user/.deeplx-cli.yml"
       ("url: https://deeplx.vercel.app/translate" ++ LF
        ++ "source_lang: auto" ++ LF ++ "target_lang: EN" ++ LF) 420]
  /\ fileWrites (fst (main stubWorld)) = [].
Proof.
  split.
  - apply (proj1 (proj2 (config_written_only_when_absent
                           firstRunWorld "/home/user" eq_refl))
             "no such file or directory"); reflexivity.
  - apply (proj1 (proj2 (proj2 (config_written_only_when_absent
                                  stubWorld "/home/user" eq_refl)))).
    reflexivity.
Defined.

(** ** The translation client *)

Section TranslateText.
Variables (w : World) (text sourceLang targetLang apiURL : string).

Let request := mkTranslationRequest text sourceLang targetLang.

Lemma translateText_marshal_failed (err : error) :
  w_json_Marshal w request = Err err ->
  translateText text sourceLang targetLang apiURL w
  = ([], Return (Err ("error marshalling request: " ++ err))).
Proof.
  intros H. unfold translateText. unfold_calls. subst request.
  rewrite H. reflexivity.
Qed.

Section Posted.
Variable requestBody : string.
Hypothesis Hmarshal : w_json_Marshal w request = Ok requestBody.

Let posted := [HttpPost apiURL "application/json" requestBody].

Lemma translateText_transport_failed (err : error) :
  w_http_Post w apiURL "application/json" requestBody = Err err ->
  translateText text sourceLang targetLang apiURL w
  = (posted, Return (Err ("error sending request to DeepLX API: " ++ err))).
Proof.
  intros H. unfold translateText. unfold_calls. subst request.
  rewrite Hmarshal. simpl. rewrite H. reflexivity.
Qed.

Section Answered.
Variable resp : Response.
Hypothesis Hpost :
  w_http_Post w apiURL "application/json" requestBody = Ok resp.

Lemma translateText_bad_status :
  StatusCode resp <> 200 ->
  translateText text sourceLang targetLang apiURL w
  = (posted,
     Return (Err (statusError (StatusCode resp) (bytesRead (Body resp))))).
Proof.
  intros H. unfold translateText. unfold_calls. subst request.
  rewrite Hmarshal. simpl. rewrite Hpost. simpl.
  destruct (Z.eqb_spec (StatusCode resp) 200); [contradiction | reflexivity].
Qed.

Lemma translateText_body_unreadable (err : error) :
  StatusCode resp = 200 ->
  readErr (Body resp) = Some err ->
  translateText text sourceLang targetLang apiURL w
  = (posted, Return (Err ("error reading response body: " ++ err))).
Proof.
  intros Hs Hr. unfold translateText. unfold_calls. subst request.
  rewrite Hmarshal. simpl. rewrite Hpost. simpl. rewrite Hs, Hr. reflexivity.
Qed.

Lemma translateText_decode_failed (err : error) :
  StatusCode resp = 200 ->
  readErr (Body resp) = None ->
  w_json_Unmarshal w (bytesRead (Body resp)) = Err err ->
  translateText text sourceLang targetLang apiURL w
  = (posted, Return (Err ("error unmarshalling response: " ++ err))).
Proof.
  intros Hs Hr Hd. unfold translateText. unfold_calls. subst request.
  rewrite Hmarshal. simpl. rewrite Hpost. simpl. rewrite Hs, Hr. simpl.
  rewrite Hd. reflexivity.
Qed.

Lemma translateText_bad_code (decoded : TranslationResponse) :
  StatusCode resp = 200 ->
  readErr (Body resp) = None ->
  w_json_Unmarshal w (bytesRead (Body resp)) = Ok decoded ->
  Code decoded <> 200 ->
  translateText text sourceLang targetLang apiURL w
  = (posted, Return (Err (codeError (Code decoded) (Message decoded)))).
Proof.
  intros Hs Hr Hd Hc. unfold translateText. unfold_calls. subst request.
  rewrite Hmarshal. simpl. rewrite Hpost. simpl. rewrite Hs, Hr. simpl.
  rewrite Hd. simpl.
  destruct (Z.eqb_spec (Code decoded) 200); [contradiction | reflexivity].
Qed.

Lemma translateText_success (decoded : TranslationResponse) :
  StatusCode resp = 200 ->
  readErr (Body resp) = None ->
  w_json_Unmarshal w (bytesRead (Body resp)) = Ok decoded ->
  Code decoded = 200 ->
  translateText text sourceLang targetLang apiURL w
  = (posted, Return (Ok (Data decoded))).
Proof.
  intros Hs Hr Hd Hc. unfold translateText. unfold_calls. subst request.
  rewrite Hmarshal. simpl. rewrite Hpost. simpl. rewrite Hs, Hr. simpl.
  rewrite Hd. simpl. rewrite Hc. reflexivity.
Qed.

End Answered.
End Posted.
End TranslateText.

(** ** An empty translation *)

(** C10. An answer with HTTP status 200 and code 200 whose data field is
    empty is a success: [translateText] returns the empty string without
    error, [main] prints the line feed of an empty line as its last output
    and returns, which ends the process with status 0.  Nothing else reaches
    standard output when the text came from [-text] or from the positional
    arguments; the prompt precedes it when the text was read from standard
    input. *)
Theorem empty_translation_is_success
    (w : World) (homeDir : string) (cfg : Config)
    (settings : list FlagSetting) (args : list string)
    (inputText : string) (t1 t2 : list Event)
    (requestBody : string) (resp : Response) (decoded : TranslationResponse) :
  let vars := flagVarsOf settings in
  let sourceLang :=
    finalSourceLang cfg (sourceLangArg vars) (sourceLangShortArg vars) in
  let targetLang :=
    finalTargetLang cfg (targetLangArg vars) (targetLangShortArg vars) in
  let apiURL := finalURL cfg (urlArg vars) in
  w_user_Current w = Ok homeDir ->
  loadConfiguration (configPathOf w homeDir) w = (t1, Return cfg) ->
  w_commandLine w = Accepted settings args ->
  versionFlag vars = false ->
  resolveInputText (textArg vars) args w = (t2, Return inputText) ->
  inputText <> "" ->
  w_json_Marshal w (mkTranslationRequest inputText sourceLang targetLang)
  = Ok requestBody ->
  w_http_Post w apiURL "application/json" requestBody = Ok resp ->
  StatusCode resp = 200 ->
  readErr (Body resp) = None ->
  w_json_Unmarshal w (bytesRead (Body resp)) = Ok decoded ->
  Code decoded = 200 ->
  Data decoded = "" ->
  snd (translateText inputText sourceLang targetLang apiURL w) = Return (Ok "")
  /\ main w
     = ((t1 ++ t2 ++ [HttpPost apiURL "application/json" requestBody]
         ++ [ClipboardWrite ""; Stdout LF])%list, Return tt)
  /\ exitCode (main w) = 0
  /\ stdoutOf (fst (main w)) = stdoutOf t2 ++ LF
  /\ (textArg vars <> "" \/ args <> [] -> stdoutOf (fst (main w)) = LF).
Proof.
  intros vars sourceLang targetLang apiURL Huser Hload Hflags Hversion Hinput
         Hne Hmarshal Hpost Hstatus Hread Hdecode Hcode Hdata.
  pose proof (translateText_success w inputText sourceLang targetLang apiURL
                requestBody Hmarshal resp Hpost decoded Hstatus Hread Hdecode
                Hcode) as Htr.
  rewrite Hdata in Htr.
  pose proof (main_translated w homeDir cfg settings args inputText t1 t2
                Huser Hload Hflags Hversion Hinput _ "" Hne Htr) as Hmain.
  assert (Hout : stdoutOf (fst (main w)) = stdoutOf t2 ++ LF).
  { rewrite Hmain. cbn [fst]. rewrite !stdoutOf_app.
    pose proof (loadConfiguration_no_stdout (configPathOf w homeDir) w) as H1.
    rewrite Hload in H1. cbn [fst] in H1.
    rewrite (stdoutOf_silent _ H1). reflexivity. }
  split; [now rewrite Htr|].
  split; [exact Hmain|].
  split; [now rewrite Hmain|].
  split; [exact Hout|].
  intros Hsrc. rewrite Hout.
  pose proof (resolveInputText_no_prompt w (textArg vars) args Hsrc) as Ht2.
  rewrite Hinput in Ht2. cbn [fst] in Ht2. now rewrite Ht2.
Qed.

Lemma empty_translation_is_success_witness :
  snd (translateText "Test text" "auto" "ZH" stubURL emptyAnswerWorld)
  = Return (Ok "")
  /\ main emptyAnswerWorld
     = ([HttpPost stubURL "application/json"
           "{text:Test text,source_lang:auto,target_lang:ZH}";
         ClipboardWrite ""; Stdout LF], Return tt)
  /\ exitCode (main emptyAnswerWorld) = 0
  /\ stdoutOf (fst (main emptyAnswerWorld)) = LF
  /\ (textArg (flagVarsOf
                 [Flag_text "Test text"; Flag_url stubURL; Flag_s "auto";
                  Flag_t "ZH"]) <> ""
      \/ @nil string <> [] -> stdoutOf (fst (main emptyAnswerWorld)) = LF).
Proof.
  apply (empty_translation_is_success emptyAnswerWorld "/home/user"
           (mkConfig "http://localhost:8080" "auto" "ZH")
           [Flag_text "Test text"; Flag_url stubURL; Flag_s "auto"; Flag_t "ZH"]
           [] "Test text" [] []
           "{text:Test text,source_lang:auto,target_lang:ZH}"
           (mkResponse 200 (mkReadAll "{code:200,data:X}" None))
           (mkTranslationResponse 200 0 "" ""));
    try reflexivity.
  discriminate.
Defined.

(** ** The contract of [translateText] *)

(** C1, as stated, fails when the transport fails: the error returned then
    carries the transport error; there is no response, hence no status code
    and no body for it to carry. *)
Lemma transport_error_carries_no_status :
  w_http_Post offlineWorld stubURL "application/json"
    "{text:hello,source_lang:auto,target_lang:ZH}"
  = Err "connection refused"
  /\ snd (translateText "hello" "auto" "ZH" stubURL offlineWorld)
     = Return (Err "error sending request to DeepLX API: connection refused")
  /\ ~ (exists statusCode body,
          snd (translateText "hello" "auto" "ZH" stubURL offlineWorld)
          = Return (Err (statusError statusCode body))).
Proof.
  split; [reflexivity | split; [reflexivity|]].
  intros (statusCode & body & H). vm_compute in H. discriminate H.
Qed.

(** C1, amended. [translateText] always returns, and what it returns is
    decided by the first step that fails: serialising the request, the
    transport (error carrying the transport error), a status other than 200
    (error carrying the status code and the body read), reading the body,
    decoding it, a code other than 200 (error carrying code and message);
    when no step fails it returns the data field.  It returns a translation
    exactly when no step fails. *)
Theorem translateText_outcome
    (w : World) (text sourceLang targetLang apiURL : string) :
  exists r,
    snd (translateText text sourceLang targetLang apiURL w) = Return r
    /\ TranslateOutcome w text sourceLang targetLang apiURL r
    /\ (forall translatedText,
          r = Ok translatedText <->
          exists requestBody resp decoded,
            w_json_Marshal w (mkTranslationRequest text sourceLang targetLang)
            = Ok requestBody
            /\ w_http_Post w apiURL "application/json" requestBody = Ok resp
            /\ StatusCode resp = 200
            /\ readErr (Body resp) = None
            /\ w_json_Unmarshal w (bytesRead (Body resp)) = Ok decoded
            /\ Code decoded = 200
            /\ translatedText = Data decoded).
Proof.
  destruct (w_json_Marshal w (mkTranslationRequest text sourceLang targetLang))
    as [requestBody|err] eqn:Hmarshal.
  2:{ eexists. rewrite (translateText_marshal_failed _ _ _ _ _ _ Hmarshal).
      split; [reflexivity | split; [now apply MarshalFailed|]].
      intros translatedText; split; [discriminate|].
      intros (b & r & d & H & _). discriminate H. }
  destruct (w_http_Post w apiURL "application/json" requestBody)
    as [resp|err] eqn:Hpost.
  2:{ eexists.
      rewrite (translateText_transport_failed _ _ _ _ _ _ Hmarshal _ Hpost).
      split; [reflexivity | split; [now apply (TransportFailed _ _ _ _ _ requestBody)|]].
      intros translatedText; split; [discriminate|].
      intros (b & r & d & Hb & Hp & _).
      injection Hb as <-. rewrite Hpost in Hp. discriminate Hp. }
  destruct (Z.eq_dec (StatusCode resp) 200) as [Hstatus|Hstatus].
  2:{ eexists.
      rewrite (translateText_bad_status _ _ _ _ _ _ Hmarshal _ Hpost Hstatus).
      split; [reflexivity | split; [now apply (BadStatus _ _ _ _ _ requestBody)|]].
      intros translatedText; split; [discriminate|].
      intros (b & r & d & Hb & Hp & Hs & _).
      injection Hb as <-. rewrite Hpost in Hp. injection Hp as <-.
      contradiction. }
  destruct (readErr (Body resp)) as [err|] eqn:Hread.
  { eexists.
    rewrite (translateText_body_unreadable _ _ _ _ _ _ Hmarshal _ Hpost _
               Hstatus Hread).
    split; [reflexivity
           | split; [now apply (BodyUnreadable _ _ _ _ _ requestBody resp)|]].
    intros translatedText; split; [discriminate|].
    intros (b & r & d & Hb & Hp & _ & Hr & _).
    injection Hb as <-. rewrite Hpost in Hp. injection Hp as <-.
    rewrite Hread in Hr. discriminate Hr. }
  destruct (w_json_Unmarshal w (bytesRead (Body resp)))
    as [decoded|err] eqn:Hdecode.
  2:{ eexists.
      rewrite (translateText_decode_failed _ _ _ _ _ _ Hmarshal _ Hpost _
                 Hstatus Hread Hdecode).
      split; [reflexivity
             | split; [now apply (DecodeFailed _ _ _ _ _ requestBody resp)|]].
      intros translatedText; split; [discriminate|].
      intros (b & r & d & Hb & Hp & _ & _ & Hd & _).
      injection Hb as <-. rewrite Hpost in Hp. injection Hp as <-.
      rewrite Hdecode in Hd. discriminate Hd. }
  destruct (Z.eq_dec (Code decoded) 200) as [Hcode|Hcode].
  2:{ eexists.
      rewrite (translateText_bad_code _ _ _ _ _ _ Hmarshal _ Hpost _
                 Hstatus Hread Hdecode Hcode).
      split; [reflexivity
             | split; [now apply (BadCode _ _ _ _ _ requestBody resp)|]].
      intros translatedText; split; [discriminate|].
      intros (b & r & d & Hb & Hp & _ & _ & Hd & Hc & _).
      injection Hb as <-. rewrite Hpost in Hp. injection Hp as <-.
      rewrite Hdecode in Hd. injection Hd as <-. contradiction. }
  eexists.
  rewrite (translateText_success _ _ _ _ _ _ Hmarshal _ Hpost _
             Hstatus Hread Hdecode Hcode).
  split; [reflexivity
         | split; [now apply (Translated _ _ _ _ _ requestBody resp)|]].
  intros translatedText; split.
  - intros [= <-]. exists requestBody, resp, decoded. repeat split; assumption.
  - intros (b & r & d & Hb & Hp & _ & _ & Hd & _ & ->).
    injection Hb as <-. rewrite Hpost in Hp. injection Hp as <-.
    rewrite Hdecode in Hd. injection Hd as <-. reflexivity.
Qed.

(** ** Trouble with the configuration file *)

Lemma loadConfig_result (configPath : string) (w : World) :
  loadConfig configPath w
  = ([], Return
           match w_os_ReadFile w configPath with
           | Err err =>
               Err ("failed to read config file " ++ configPath ++ ": " ++ err)
           | Ok file =>
               match w_yaml_Unmarshal w file with
               | Err err =>
                   Err ("failed to parse config file " ++ configPath ++ ": " ++ err)
               | Ok config => Ok config
               end
           end).
Proof. unfold loadConfig. unfold_calls. run_cases. Qed.

(** C5, as stated, fails when [os.Stat] fails: the process ends with
    status 1 for that reason alone. *)
Lemma stat_failure_is_fatal :
  w_os_Stat statDeniedWorld "/home/user/.deeplx-cli.yml"
  = StatErr "permission denied"
  /\ main statDeniedWorld
     = ([Log "failed to check config file /home/user/.deeplx-cli.yml: permission denied"],
        Exit 1)
  /\ exitCode (main statDeniedWorld) = 1
  /\ ~ (exists t cfg,
          loadConfiguration "/home/user/.deeplx-cli.yml" statDeniedWorld
          = (t, Return cfg)).
Proof.
  split; [reflexivity | split; [reflexivity | split; [reflexivity|]]].
  intros (t & cfg & H). vm_compute in H. discriminate H.
Qed.

(** What loading the configuration does, by the answer of [os.Stat]. *)
Lemma loadConfiguration_outcomes
    (w : World) (configPath : string) :
  (forall err,
     w_os_Stat w configPath = StatErr err ->
     loadConfiguration configPath w
     = ([Log ("failed to check config file " ++ configPath ++ ": " ++ err)],
        Exit 1))
  /\ ((forall err, w_os_Stat w configPath <> StatErr err) ->
      exists t cfg,
        loadConfiguration configPath w = (t, Return cfg)
        /\ (snd (loadConfig configPath w) = Return (Ok cfg)
            \/ exists err,
                 snd (loadConfig configPath w) = Return (Err err)
                 /\ In (Log (loadWarning configPath err)) t
                 /\ cfg = match w_os_Stat w configPath with
                          | StatNotExist _ => defaultConfig
                          | _ => emptyConfig
                          end)
        /\ (forall absent yamlData err,
              w_os_Stat w configPath = StatNotExist absent ->
              w_yaml_Marshal w defaultConfig = Ok yamlData ->
              w_os_WriteFile w configPath yamlData 420 = Some err ->
              In (Log (writeWarning configPath err)) t)).
Proof.
  split.
  - intros err Hstat. unfold loadConfiguration. unfold_calls.
    rewrite Hstat. reflexivity.
  - intros Hstat.
    pose proof (loadConfig_result configPath w) as Hload.
    set (loaded := match w_os_ReadFile w configPath with
                   | Ok _ => _ | Err _ => _ end) in Hload.
    unfold loadConfiguration. unfold_calls. rewrite Hload. cbn [snd].
    destruct (w_os_Stat w configPath) as [|absent|err] eqn:Hs;
      [| |now destruct (Hstat err)].
    + destruct loaded as [cfg|err]; do 2 eexists;
        (split; [reflexivity|]); split.
      * now left.
      * intros ? ? ? [=].
      * right. exists err. repeat split. now left.
      * intros ? ? ? [=].
    + destruct (w_yaml_Marshal w defaultConfig) as [yamlData|merr] eqn:Hm;
        [destruct (w_os_WriteFile w configPath yamlData 420) as [werr|] eqn:Hw|];
        destruct loaded as [cfg|err]; do 2 eexists;
        (split; [reflexivity|]); split;
        try (now left);
        try (right; exists err; repeat split; simpl; tauto);
        intros ? y e _ [= <-] He; try discriminate;
        rewrite Hw in He; try discriminate;
        injection He as <-; simpl; tauto.
Qed.

Lemma main_after_loading
    (w : World) (homeDir : string) (t : list Event) (cfg : Config) :
  w_user_Current w = Ok homeDir ->
  loadConfiguration (configPathOf w homeDir) w = (t, Return cfg) ->
  main w = ((t ++ fst (mainWithConfig cfg w))%list, snd (mainWithConfig cfg w)).
Proof.
  intros Huser Hload. unfold main.
  erewrite bind_Return by (unfold user_Current, ask; rewrite Huser; reflexivity).
  cbv iota. erewrite bind_Return by reflexivity.
  erewrite bind_Return by apply Hload.
  reflexivity.
Qed.

Lemma main_loading_exits
    (w : World) (homeDir : string) (t : list Event) (code : Z) :
  w_user_Current w = Ok homeDir ->
  loadConfiguration (configPathOf w homeDir) w = (t, Exit code) ->
  main w = (t, Exit code).
Proof.
  intros Huser Hload. unfold main.
  erewrite bind_Return by (unfold user_Current, ask; rewrite Huser; reflexivity).
  cbv iota. erewrite bind_Return by reflexivity.
  erewrite bind_Exit by apply Hload.
  reflexivity.
Qed.

(** C5, amended. A failure of [os.Stat] other than absence is fatal (status
    1).  Every other outcome is not: when the file is absent, cannot be
    written, cannot be read or cannot be parsed, loading returns and [main]
    goes on to the flags, with the configuration read from the file when
    reading and parsing succeed, and otherwise, after a warning, with the
    default configuration when the file was absent and the empty one when it
    existed; a failed write of the default document is logged as a warning. *)
Theorem config_trouble_is_fatal_only_when_stat_fails
    (w : World) (homeDir : string) :
  let configPath := configPathOf w homeDir in
  w_user_Current w = Ok homeDir ->
  (forall err,
     w_os_Stat w configPath = StatErr err ->
     main w
     = ([Log ("failed to check config file " ++ configPath ++ ": " ++ err)],
        Exit 1))
  /\ ((forall err, w_os_Stat w configPath <> StatErr err) ->
      exists t cfg,
        main w
        = ((t ++ fst (mainWithConfig cfg w))%list, snd (mainWithConfig cfg w))
        /\ loadConfiguration configPath w = (t, Return cfg)
        /\ (snd (loadConfig configPath w) = Return (Ok cfg)
            \/ exists err,
                 snd (loadConfig configPath w) = Return (Err err)
                 /\ In (Log (loadWarning configPath err)) t
                 /\ cfg = match w_os_Stat w configPath with
                          | StatNotExist _ => defaultConfig
                          | _ => emptyConfig
                          end)
        /\ (forall absent yamlData err,
              w_os_Stat w configPath = StatNotExist absent ->
              w_yaml_Marshal w defaultConfig = Ok yamlData ->
              w_os_WriteFile w configPath yamlData 420 = Some err ->
              In (Log (writeWarning configPath err)) t)).
Proof.
  intros configPath Huser.
  destruct (loadConfiguration_outcomes w configPath) as [Hfatal Hgoes].
  split.
  - intros err Hstat.
    apply (main_loading_exits w homeDir _ 1 Huser). now apply Hfatal.
  - intros Hstat.
    destruct (Hgoes Hstat) as (t & cfg & Hload & Hcfg & Hwrite).
    exists t, cfg.
    split; [now apply (main_after_loading w homeDir)|].
    split; [exact Hload|]. split; [exact Hcfg | exact Hwrite].
Qed.

Lemma config_trouble_is_fatal_only_when_stat_fails_witness :
  exists t cfg,
    main brokenConfigWorld
    = ((t ++ fst (mainWithConfig cfg brokenConfigWorld))%list,
       snd (mainWithConfig cfg brokenConfigWorld))
    /\ loadConfiguration "/home/user/.deeplx-cli.yml" brokenConfigWorld
       = (t, Return cfg)
    /\ (snd (loadConfig "/home/user/.deeplx-cli.yml" brokenConfigWorld)
        = Return (Ok cfg)
        \/ exists err,
             snd (loadConfig "/home/user/.deeplx-cli.yml" brokenConfigWorld)
             = Return (Err err)
             /\ In (Log (loadWarning "/home/user/.deeplx-cli.yml" err)) t
             /\ cfg = emptyConfig)
    /\ (forall absent yamlData err,
          w_os_Stat brokenConfigWorld "/home/user/.deeplx-cli.yml"
          = StatNotExist absent ->
          w_yaml_Marshal brokenConfigWorld defaultConfig = Ok yamlData ->
          w_os_WriteFile brokenConfigWorld "/home/user/.deeplx-cli.yml"
            yamlData 420 = Some err ->
          In (Log (writeWarning "/home/user/.deeplx-cli.yml" err)) t).
Proof.
  apply (proj2 (config_trouble_is_fatal_only_when_stat_fails
                  brokenConfigWorld "/home/user" eq_refl)).
  intros err. discriminate.
Defined.

(** ** Flags set to the empty string *)

Lemma boundValue_setFlag_other (f g : FlagSetting) (vs : FlagVars) :
  sameFlag f g = false -> boundValue f (setFlag vs g) = boundValue f vs.
Proof. destruct vs, f, g; simpl; intros H; try reflexivity; discriminate H. Qed.

Lemma boundValue_absent (f : FlagSetting) (settings : list FlagSetting) :
  absentFrom f settings = true ->
  forall vs, boundValue f (fold_left setFlag settings vs) = boundValue f vs.
Proof.
  induction settings as [|g rest IH]; intros Habs vs; [reflexivity|].
  simpl in Habs. apply andb_prop in Habs as [Hg Hrest].
  simpl. rewrite (IH Hrest). apply boundValue_setFlag_other.
  now destruct (sameFlag f g).
Qed.

Lemma setFlag_empty_on_empty (f : FlagSetting) (vs : FlagVars) :
  isEmptyStringFlag f = true -> boundValue f vs = "" -> setFlag vs f = vs.
Proof.
  destruct vs, f; simpl; intros Hf Hv; try discriminate Hf;
    apply String.eqb_eq in Hf; subst; reflexivity.
Qed.

Lemma flagVarsOf_empty_flag (before after : list FlagSetting) (f : FlagSetting) :
  isEmptyStringFlag f = true ->
  absentFrom f before = true ->
  flagVarsOf (before ++ f :: after) = flagVarsOf (before ++ after).
Proof.
  intros Hf Habs. unfold flagVarsOf. rewrite !fold_left_app. simpl.
  rewrite setFlag_empty_on_empty; [reflexivity | exact Hf |].
  rewrite (boundValue_absent f before Habs).
  now destruct f.
Qed.

(** Only [flag.Parse] looks at the command line. *)

Lemma loadConfiguration_withCommandLine
    (configPath : string) (w : World) (c : CommandLine) :
  loadConfiguration configPath (withCommandLine w c)
  = loadConfiguration configPath w.
Proof. unfold loadConfiguration, loadConfig. unfold_calls. run_cases. Qed.

Lemma resolveInputText_withCommandLine
    (textArg : string) (args : list string) (w : World) (c : CommandLine) :
  resolveInputText textArg args (withCommandLine w c)
  = resolveInputText textArg args w.
Proof. unfold resolveInputText. unfold_calls. run_cases. Qed.

Lemma translateText_withCommandLine
    (text sourceLang targetLang apiURL : string) (w : World) (c : CommandLine) :
  translateText text sourceLang targetLang apiURL (withCommandLine w c)
  = translateText text sourceLang targetLang apiURL w.
Proof. unfold translateText. unfold_calls. run_cases. Qed.

Lemma main_depends_on_flag_values
    (w : World) (settings settings' : list FlagSetting) (args : list string) :
  flagVarsOf settings = flagVarsOf settings' ->
  main (withCommandLine w (Accepted settings args))
  = main (withCommandLine w (Accepted settings' args)).
Proof.
  intros Hvars.
  assert (Hparse : flag_Parse (withCommandLine w (Accepted settings args))
                   = flag_Parse (withCommandLine w (Accepted settings' args))).
  { unfold flag_Parse. unfold_calls. simpl.
    fold (flagVarsOf settings) (flagVarsOf settings'). now rewrite Hvars. }
  unfold main, mainWithConfig.
  repeat first
    [ reflexivity
    | apply bind_congr;
      [ first [ reflexivity
              | exact Hparse
              | now rewrite !loadConfiguration_withCommandLine
              | now rewrite !resolveInputText_withCommandLine
              | now rewrite !translateText_withCommandLine ]
      | intros ?; cbv beta ]
    | match goal with
      | |- (match ?x with _ => _ end) _ = _ => destruct x
      end ].
  match goal with
  | |- context [match ?x with _ => _ end] => destruct x; reflexivity
  end.
Qed.

(** C9. A string flag given the empty string cannot be told from an absent
    flag: the flag variables after parsing, and with them the whole run, are
    those of the command line without it.  An empty [-text] falls through to
    the positional arguments or standard input, an empty [-url] or language
    flag to the next candidate in the order of precedence. *)
Theorem empty_flag_is_absent_flag
    (w : World) (before after : list FlagSetting) (f : FlagSetting)
    (args : list string) :
  isEmptyStringFlag f = true ->
  absentFrom f before = true ->
  flagVarsOf (before ++ f :: after) = flagVarsOf (before ++ after)
  /\ main (withCommandLine w (Accepted (before ++ f :: after) args))
     = main (withCommandLine w (Accepted (before ++ after) args))
  /\ textArg (flagVarsOf [Flag_text ""]) = textArg flagDefaults
  /\ (args <> [] ->
      resolveInputText (textArg (flagVarsOf [Flag_text ""])) args w
      = ([], Return (String.concat " " args)))
  /\ (args = [] -> readErr (w_stdin w) = None ->
      resolveInputText (textArg (flagVarsOf [Flag_text ""])) args w
      = ([Stdout (stdinPrompt ++ LF)],
         Return (stripTrailingNewline (bytesRead (w_stdin w)))))
  /\ (forall cfg,
        finalURL cfg (urlArg (flagVarsOf [Flag_url ""]))
        = firstNonEmpty [URL cfg] defaultDeepLXAPI)
  /\ (forall cfg short,
        finalSourceLang cfg (sourceLangArg (flagVarsOf [Flag_source_lang ""])) short
        = firstNonEmpty [short; SourceLang cfg] "auto"
        /\ finalTargetLang cfg (targetLangArg (flagVarsOf [Flag_target_lang ""])) short
           = firstNonEmpty [short; TargetLang cfg] "EN")
  /\ (forall cfg long,
        finalSourceLang cfg long (sourceLangShortArg (flagVarsOf [Flag_s ""]))
        = firstNonEmpty [long; SourceLang cfg] "auto"
        /\ finalTargetLang cfg long (targetLangShortArg (flagVarsOf [Flag_t ""]))
           = firstNonEmpty [long; TargetLang cfg] "EN").
Proof.
  intros Hf Habs.
  pose proof (flagVarsOf_empty_flag before after f Hf Habs) as Hvars.
  split; [exact Hvars|].
  split; [now apply main_depends_on_flag_values|].
  split; [reflexivity|].
  destruct (resolveInputText_without_flag w args) as (Hargs & Hstdin).
  split; [exact Hargs|].
  split; [exact Hstdin|].
  split.
  { intros cfg. simpl. unfold finalURL, nonEmpty. simpl.
    now destruct (URL cfg =? "")%string. }
  split; intros cfg other; simpl;
    unfold finalSourceLang, finalTargetLang, nonEmpty; simpl;
    split; now destruct (other =? "")%string.
Qed.

Lemma empty_flag_is_absent_flag_witness :
  flagVarsOf ([Flag_s "auto"] ++ Flag_url "" :: [Flag_t "ZH"])
  = flagVarsOf ([Flag_s "auto"] ++ [Flag_t "ZH"])
  /\ main (withCommandLine stubWorld
             (Accepted ([Flag_s "auto"] ++ Flag_text "" :: [Flag_t "ZH"])
                       ["Hello,"; "world!"]))
     = main (withCommandLine stubWorld
               (Accepted ([Flag_s "auto"] ++ [Flag_t "ZH"])
                         ["Hello,"; "world!"])).
Proof.
  split.
  - apply (proj1 (empty_flag_is_absent_flag stubWorld [Flag_s "auto"]
                    [Flag_t "ZH"] (Flag_url "") [] eq_refl eq_refl)).
  - apply (proj1 (proj2 (empty_flag_is_absent_flag stubWorld [Flag_s "auto"]
                           [Flag_t "ZH"] (Flag_text "") ["Hello,"; "world!"]
                           eq_refl eq_refl))).
Defined.

(** * Further properties of the code *)

(** ** [trimSuffix], for any suffix *)

Lemma append_eq_empty (s t : string) : s ++ t = "" -> s = "" /\ t = "".
Proof. destruct s; simpl; intros H; [now split | discriminate H]. Qed.

Lemma trimSuffix_test_app (p suffix : string) :
  (String.length suffix <=? String.length (p ++ suffix))%nat
  && (sliceFrom (p ++ suffix)
        (String.length (p ++ suffix) - String.length suffix) =? suffix)%string
  = true.
Proof.
  unfold sliceFrom. rewrite Str.length_append.
  replace (String.length p + String.length suffix - String.length suffix)%nat
    with (String.length p) by lia.
  replace (String.length p + String.length suffix - String.length p)%nat
    with (String.length suffix) by lia.
  rewrite Str.substring_suffix, String.eqb_refl.
  destruct (Nat.leb_spec (String.length suffix)
                         (String.length p + String.length suffix));
    [reflexivity | lia].
Qed.

(** X1. [trimSuffix s suffix] is [p] when [s] is [p ++ suffix], and [s]
    itself when [s] does not end with [suffix]; both cases are decided by
    the test of the code. *)
Theorem trimSuffix_spec (s suffix : string) :
  (exists p, s = p ++ suffix /\ trimSuffix s suffix = p)
  \/ ((forall p, s <> p ++ suffix) /\ trimSuffix s suffix = s).
Proof.
  destruct ((String.length suffix <=? String.length s)%nat
            && (sliceFrom s (String.length s - String.length suffix)
                =? suffix)%string) eqn:Htest.
  - left. exists (sliceTo s (String.length s - String.length suffix)).
    apply andb_prop in Htest as [Hlen Hsuf].
    apply Nat.leb_le in Hlen. apply String.eqb_eq in Hsuf.
    split.
    + rewrite <- Hsuf at 2. unfold sliceTo, sliceFrom.
      symmetry. apply Str.substring_split. lia.
    + unfold trimSuffix. apply Nat.leb_le in Hlen.
      apply String.eqb_eq in Hsuf. now rewrite Hlen, Hsuf.
  - assert (Hno : forall p, s <> p ++ suffix).
    { intros p ->. now rewrite trimSuffix_test_app in Htest. }
    right. split; [exact Hno | now apply trimSuffix_no_suffix].
Qed.

(** X2. [trimSuffix] removes one copy of the suffix only, leaves a string
    shorter than the suffix alone, and does nothing for the empty suffix. *)
Theorem trimSuffix_once (s suffix : string) :
  trimSuffix ((s ++ suffix) ++ suffix) suffix = s ++ suffix
  /\ trimSuffix s "" = s
  /\ ((String.length s < String.length suffix)%nat -> trimSuffix s suffix = s)
  /\ String.length (trimSuffix (s ++ suffix) suffix) = String.length s.
Proof.
  split; [apply trimSuffix_app|].
  split.
  { rewrite <- (Str.append_nil_r s) at 1. apply trimSuffix_app. }
  split.
  { intros Hlen. unfold trimSuffix.
    destruct (Nat.leb_spec (String.length suffix) (String.length s));
      [lia | reflexivity]. }
  now rewrite trimSuffix_app.
Qed.

Lemma trimSuffix_once_witness :
  (String.length "" < String.length LF)%nat /\ trimSuffix "" LF = "".
Proof.
  split; [simpl; lia|].
  apply (proj1 (proj2 (proj2 (trimSuffix_once "" LF)))). simpl; lia.
Defined.

(** ** When the resolved text is empty *)

Lemma concat_space_empty (args : list string) :
  args <> [] -> (String.concat " " args = "" <-> args = [""]).
Proof.
  intros Hne. destruct args as [|a [|b rest]]; [contradiction | |].
  - simpl. split; [now intros -> | now intros [= ->]].
  - split; [|discriminate].
    change (String.concat " " (a :: b :: rest))
      with (a ++ " " ++ String.concat " " (b :: rest)).
    intros H. apply append_eq_empty in H as [_ H]. discriminate H.
Qed.

(** X3. Without [-text] and without positional arguments, the text read
    from standard input resolves to the empty string exactly when the input
    is empty or is a single line feed. *)
Theorem stdin_text_empty_iff (w : World) :
  readErr (w_stdin w) = None ->
  (snd (resolveInputText "" [] w) = Return ""
   <-> bytesRead (w_stdin w) = "" \/ bytesRead (w_stdin w) = LF).
Proof.
  intros Hread.
  rewrite (proj2 (resolveInputText_without_flag w []) eq_refl Hread).
  cbn [snd].
  destruct (stripTrailingNewline_cases (bytesRead (w_stdin w)))
    as [(p & Hs & Hstrip) | (Hno & Hstrip)]; rewrite Hstrip.
  - split.
    + intros [= ->]. right. exact Hs.
    + intros [H | H].
      * rewrite H in Hs. destruct p; discriminate Hs.
      * rewrite H in Hs. destruct p as [|c [|d p]]; try discriminate Hs.
        reflexivity.
  - split.
    + intros [= H]. now left.
    + intros [H | H]; [now rewrite H|].
      exfalso. apply (Hno ""). exact H.
Qed.

Lemma stdin_text_empty_iff_witness :
  snd (resolveInputText "" [] silentWorld) = Return ""
  <-> bytesRead (w_stdin silentWorld) = ""
      \/ bytesRead (w_stdin silentWorld) = LF.
Proof. apply (stdin_text_empty_iff silentWorld). reflexivity. Defined.

(** X4. Without [-text], positional arguments resolve to the empty string
    exactly when there is a single, empty argument: two empty arguments give
    a space, which is sent for translation. *)
Theorem positional_text_empty_iff (w : World) (args : list string) :
  args <> [] ->
  (snd (resolveInputText "" args w) = Return "" <-> args = [""]).
Proof.
  intros Hne.
  rewrite (proj1 (resolveInputText_without_flag w args) Hne). cbn [snd].
  rewrite <- (concat_space_empty args Hne).
  split; [now intros [= ->] | now intros ->].
Qed.

Lemma positional_text_empty_iff_witness :
  snd (resolveInputText "" [""; ""] stubWorld) = Return "" <-> [""; ""] = [""].
Proof. apply (positional_text_empty_iff stubWorld [""; ""]). discriminate. Defined.

(** ** Effective values *)

(** X5. The effective URL, source language and target language are never
    empty, whatever the flags and the configuration hold. *)
Theorem effective_values_never_empty
    (cfg : Config) (urlArg long short : string) :
  finalURL cfg urlArg <> ""
  /\ finalSourceLang cfg long short <> ""
  /\ finalTargetLang cfg long short <> "".
Proof.
  unfold finalURL, finalSourceLang, finalTargetLang, nonEmpty.
  split; [|split].
  - destruct (String.eqb_spec urlArg ""); simpl; [|assumption].
    destruct (String.eqb_spec (URL cfg) ""); simpl; [discriminate | assumption].
  - destruct (String.eqb_spec long ""); simpl; [|assumption].
    destruct (String.eqb_spec short ""); simpl; [|assumption].
    destruct (String.eqb_spec (SourceLang cfg) ""); [discriminate | assumption].
  - destruct (String.eqb_spec long ""); simpl; [|assumption].
    destruct (String.eqb_spec short ""); simpl; [|assumption].
    destruct (String.eqb_spec (TargetLang cfg) ""); [discriminate | assumption].
Qed.

(** ** Flags and their variables *)

(** X6. Occurrences of flags bound to different variables commute, so the
    long and the shorthand language flags take effect by kind and not by
    position; [-version] and [-v] share one variable, whose value is that of
    the last occurrence of either. *)
Theorem flags_by_variable
    (vs : FlagVars) (f g : FlagSetting) (settings : list FlagSetting)
    (b : bool) :
  (sameVariable f g = false ->
   setFlag (setFlag vs f) g = setFlag (setFlag vs g) f)
  /\ versionFlag (flagVarsOf (settings ++ [Flag_version b])) = b
  /\ versionFlag (flagVarsOf (settings ++ [Flag_v b])) = b.
Proof.
  split; [|split].
  - destruct vs, f, g; simpl; intros H; try reflexivity; discriminate H.
  - unfold flagVarsOf. rewrite fold_left_app. simpl.
    now destruct (fold_left setFlag settings flagDefaults).
  - unfold flagVarsOf. rewrite fold_left_app. simpl.
    now destruct (fold_left setFlag settings flagDefaults).
Qed.

Lemma flags_by_variable_witness :
  flagVarsOf [Flag_s "EN"; Flag_source_lang "DE"]
  = flagVarsOf [Flag_source_lang "DE"; Flag_s "EN"].
Proof.
  apply (proj1 (flags_by_variable flagDefaults (Flag_s "EN")
                  (Flag_source_lang "DE") [] true)).
  reflexivity.
Defined.

(** ** More on the monad *)

Lemma bind_ext {A B : Type} (m : M A) (k1 k2 : A -> M B) (w : World) :
  (forall a, k1 a w = k2 a w) -> bind m k1 w = bind m k2 w.
Proof.
  intros H. unfold bind. destruct (m w) as [t [a|code]]; [|reflexivity].
  now rewrite H.
Qed.

Section TraceAll.
Variable P : World -> Event -> Prop.

Lemma traceAll_ret {A : Type} (a : A) : traceAll P (ret a).
Proof. intros w. constructor. Qed.

Lemma traceAll_exit {A : Type} (code : Z) : traceAll P (@os_Exit A code).
Proof. intros w. constructor. Qed.



End TraceAll.

Section ExitsOnly.
Variable P : World -> Z -> Prop.

Lemma exitsOnly_ret {A : Type} (a : A) : exitsOnly P (ret a).
Proof. intros w. exact I. Qed.

Lemma exitsOnly_ask {A : Type} (f : World -> A) : exitsOnly P (ask f).
Proof. intros w. exact I. Qed.

Lemma exitsOnly_emit (e : Event) : exitsOnly P (emit e).
Proof. intros w. exact I. Qed.

Lemma exitsOnly_exit {A : Type} (code : Z) :
  (forall w, P w code) -> exitsOnly P (@os_Exit A code).
Proof. intros H w. apply H. Qed.

Lemma exitsOnly_bind {A B : Type} (m : M A) (k : A -> M B) :
  exitsOnly P m -> (forall a, exitsOnly P (k a)) -> exitsOnly P (bind m k).
Proof.
  intros Hm Hk w. unfold bind. specialize (Hm w).
  destruct (m w) as [t [a|code]]; cbn [snd] in *; [|exact Hm].
  specialize (Hk a w). now destruct (k a w) as [t' o].
Qed.

End ExitsOnly.

Ltac exits_only :=
  repeat first
    [ apply exitsOnly_ret
    | apply exitsOnly_ask
    | apply exitsOnly_emit
    | apply exitsOnly_exit; intros ?; unfold exitStatus; tauto
    | apply exitsOnly_bind; [|intros ?]
    | match goal with
      | |- exitsOnly _ (match ?x with _ => _ end) => destruct x
      end
    | progress unfold log_Printf, log_Fatalf, fmt_Printf, fmt_Println,
        user_Current, filepath_Join, os_Stat, yaml_Marshal, os_ReadFile,
        yaml_Unmarshal, io_ReadAll_Stdin, json_Marshal, json_Unmarshal,
        os_WriteFile, http_Post, clipboard_WriteAll ].



(** ** What [translateText] does besides returning *)




(** ** Requests sent by [main] *)












(** ** Exit statuses *)

Lemma flag_Parse_exits : exitsOnly exitStatus flag_Parse.
Proof.
  intros w. unfold flag_Parse. unfold_calls. unfold exitStatus.
  destruct (w_commandLine w) as [err| |settings args] eqn:Hc; simpl;
    [|tauto|exact I].
  right; right. split; [reflexivity | now exists err].
Qed.

(** X10. [main] ends with status 0, 1 or 2, and with 2 only when
    [flag.Parse] rejects the command line. *)
Theorem main_exit_statuses (w : World) : exitStatus w (exitCode (main w)).
Proof.
  assert (Hall : exitsOnly exitStatus main).
  { unfold main, mainWithConfig, loadConfiguration, loadConfig,
      resolveInputText, translateText.
    apply exitsOnly_bind; [apply exitsOnly_ask|].
    intros [homeDir|err]; [|exits_only].
    apply exitsOnly_bind; [apply exitsOnly_ask|]. intros configPath.
    apply exitsOnly_bind; [exits_only|]. intros cfg.
    apply exitsOnly_bind; [apply flag_Parse_exits|].
    intros [vars flag_Args]. exits_only. }
  specialize (Hall w). unfold exitCode.
  destruct (snd (main w)); [left; reflexivity | exact Hall].
Qed.

(** ** Runs of [main], continued *)

Lemma clipboardWrites_app (t u : list Event) :
  clipboardWrites (t ++ u) = (clipboardWrites t ++ clipboardWrites u)%list.
Proof. apply filter_app. Qed.

Lemma loadConfiguration_no_clipboard (configPath : string) :
  emitsOnly notClipboardWrite (loadConfiguration configPath).
Proof. unfold loadConfiguration, loadConfig. emits_only. Qed.

Lemma flag_Parse_no_clipboard : emitsOnly notClipboardWrite flag_Parse.
Proof. apply flag_Parse_no_effect_on_files_or_network. reflexivity. Qed.

Lemma resolveInputText_no_clipboard (textArg : string) (args : list string) :
  emitsOnly notClipboardWrite (resolveInputText textArg args).
Proof. unfold resolveInputText. emits_only. Qed.

Lemma translateText_no_clipboard
    (text sourceLang targetLang apiURL : string) :
  emitsOnly notClipboardWrite (translateText text sourceLang targetLang apiURL).
Proof. unfold translateText. emits_only. Qed.

Lemma translateText_no_stdout
    (text sourceLang targetLang apiURL : string) :
  emitsOnly notStdout (translateText text sourceLang targetLang apiURL).
Proof. unfold translateText. emits_only. Qed.

Lemma clipboardWrites_silent (t : list Event) :
  forallb notClipboardWrite t = true -> clipboardWrites t = [].
Proof. apply filter_none. Qed.

Section MainReachesFlags.
Variables (w : World) (homeDir : string) (cfg : Config)
          (settings : list FlagSetting) (args : list string)
          (t1 : list Event).
Hypothesis Huser : w_user_Current w = Ok homeDir.
Hypothesis Hload :
  loadConfiguration (configPathOf w homeDir) w = (t1, Return cfg).
Hypothesis Hflags : w_commandLine w = Accepted settings args.

Lemma main_version :
  versionFlag (flagVarsOf settings) = true ->
  main w
  = ((t1 ++ [Stdout ("deeplx-cli version " ++ version ++ LF)])%list, Exit 0).
Proof.
  intros Hversion.
  rewrite (main_after_loading w homeDir t1 cfg Huser Hload).
  unfold mainWithConfig.
  erewrite bind_Return
    by (unfold flag_Parse, bind, ask; rewrite Hflags; reflexivity).
  cbv beta iota. fold (flagVarsOf settings). rewrite Hversion.
  reflexivity.
Qed.

Lemma main_input_exits (t2 : list Event) (code : Z) :
  versionFlag (flagVarsOf settings) = false ->
  resolveInputText (textArg (flagVarsOf settings)) args w = (t2, Exit code) ->
  main w = ((t1 ++ t2)%list, Exit code).
Proof.
  intros Hversion Hinput.
  rewrite (main_after_loading w homeDir t1 cfg Huser Hload).
  unfold mainWithConfig.
  erewrite bind_Return
    by (unfold flag_Parse, bind, ask; rewrite Hflags; reflexivity).
  cbv beta iota. fold (flagVarsOf settings). rewrite Hversion.
  erewrite bind_Exit by apply Hinput.
  reflexivity.
Qed.

End MainReachesFlags.

(** X11. With [-version] (or [-v]) in effect, [main] prints the version line
    and ends with status 0 without reading the text, sending a request or
    touching the clipboard; the configuration has been loaded before, so a
    first run still writes the default configuration file. *)
Theorem version_flag_short_circuits
    (w : World) (homeDir : string) (cfg : Config)
    (settings : list FlagSetting) (args : list string) (t1 : list Event) :
  w_user_Current w = Ok homeDir ->
  loadConfiguration (configPathOf w homeDir) w = (t1, Return cfg) ->
  w_commandLine w = Accepted settings args ->
  versionFlag (flagVarsOf settings) = true ->
  main w
  = ((t1 ++ [Stdout ("deeplx-cli version " ++ version ++ LF)])%list, Exit 0)
  /\ stdoutOf (fst (main w)) = "deeplx-cli version " ++ version ++ LF
  /\ requests (fst (main w)) = []
  /\ clipboardWrites (fst (main w)) = []
  /\ fileWrites (fst (main w)) = fileWrites t1.
Proof.
  intros Huser Hload Hflags Hversion.
  rewrite (main_version w homeDir cfg settings args t1 Huser Hload Hflags
             Hversion).
  cbn [fst].
  pose proof (loadConfiguration_no_stdout (configPathOf w homeDir) w) as Hout.
  pose proof (loadConfiguration_no_request (configPathOf w homeDir) w) as Hreq.
  pose proof (loadConfiguration_no_clipboard (configPathOf w homeDir) w) as Hclip.
  rewrite Hload in Hout, Hreq, Hclip. cbn [fst] in Hout, Hreq, Hclip.
  split; [reflexivity|].
  split; [rewrite stdoutOf_app, (stdoutOf_silent _ Hout); reflexivity|].
  split; [rewrite requests_app; unfold requests;
          rewrite (filter_none _ _ Hreq); reflexivity|].
  split; [rewrite clipboardWrites_app, (clipboardWrites_silent _ Hclip);
          reflexivity|].
  rewrite fileWrites_app. simpl. apply app_nil_r.
Qed.

Lemma version_flag_short_circuits_witness :
  main versionWorld
  = ([Log "Config file /home/user/.deeplx-cli.yml does not exist, generating default config.";
      WriteFile "/home/user/.deeplx-cli.yml"
        ("url: https://deeplx.vercel.app/translate" ++ LF
         ++ "source_lang: auto" ++ LF ++ "target_lang: EN" ++ LF) 420;
      Log "Default config file generated: /home/user/.deeplx-cli.yml";
      Stdout ("deeplx-cli version dev" ++ LF)], Exit 0)
  /\ stdoutOf (fst (main versionWorld)) = "deeplx-cli version dev" ++ LF
  /\ requests (fst (main versionWorld)) = []
  /\ clipboardWrites (fst (main versionWorld)) = []
  /\ fileWrites (fst (main versionWorld))
     = [WriteFile "/home/user/.deeplx-cli.yml"
          ("url: https://deeplx.vercel.app/translate" ++ LF
           ++ "source_lang: auto" ++ LF ++ "target_lang: EN" ++ LF) 420].
Proof.
  apply (version_flag_short_circuits versionWorld "/home/user"
           (mkConfig "http://localhost:8080" "auto" "ZH")
           [Flag_version true] ["ignored"]
           [Log "Config file /home/user/.deeplx-cli.yml does not exist, generating default config.";
            WriteFile "/home/user/.deeplx-cli.yml"
              ("url: https://deeplx.vercel.app/translate" ++ LF
               ++ "source_lang: auto" ++ LF ++ "target_lang: EN" ++ LF) 420;
            Log "Default config file generated: /home/user/.deeplx-cli.yml"]);
    reflexivity.
Defined.

(** X12. When standard input is needed and cannot be read, [main] ends with
    status 1 after the prompt and a diagnostic, and sends no request. *)
Theorem unreadable_stdin_is_fatal
    (w : World) (homeDir : string) (cfg : Config)
    (settings : list FlagSetting) (t1 : list Event) (err : error) :
  w_user_Current w = Ok homeDir ->
  loadConfiguration (configPathOf w homeDir) w = (t1, Return cfg) ->
  w_commandLine w = Accepted settings [] ->
  versionFlag (flagVarsOf settings) = false ->
  textArg (flagVarsOf settings) = "" ->
  readErr (w_stdin w) = Some err ->
  main w
  = ((t1 ++ [Stdout (stdinPrompt ++ LF);
             Log ("failed to read standard input: " ++ err)])%list, Exit 1)
  /\ requests (fst (main w)) = [].
Proof.
  intros Huser Hload Hflags Hversion Htext Hread.
  assert (Hinput : resolveInputText (textArg (flagVarsOf settings)) [] w
                   = ([Stdout (stdinPrompt ++ LF);
                       Log ("failed to read standard input: " ++ err)], Exit 1)).
  { rewrite Htext. unfold resolveInputText. unfold_calls. simpl.
    now rewrite Hread. }
  rewrite (main_input_exits w homeDir cfg settings [] t1 Huser Hload Hflags
             _ 1 Hversion Hinput).
  split; [reflexivity|].
  cbn [fst]. rewrite requests_app.
  pose proof (loadConfiguration_no_request (configPathOf w homeDir) w) as Hreq.
  rewrite Hload in Hreq. cbn [fst] in Hreq.
  unfold requests. now rewrite (filter_none _ _ Hreq).
Qed.

Lemma unreadable_stdin_is_fatal_witness :
  main brokenStdinWorld
  = ([Stdout (stdinPrompt ++ LF);
      Log "failed to read standard input: read /dev/stdin: input/output error"],
     Exit 1)
  /\ requests (fst (main brokenStdinWorld)) = [].
Proof.
  apply (unreadable_stdin_is_fatal brokenStdinWorld "/home/user"
           (mkConfig "http://localhost:8080" "auto" "ZH") [] []);
    reflexivity.
Defined.

(** X13. When the translation succeeds, [main] hands the translated text to
    the clipboard, then prints it followed by a line feed, and returns
    (status 0): the clipboard is written once, with the printed text less
    the line feed, and nothing but the prompt, if any, precedes the text on
    standard output. *)
Theorem successful_run
    (w : World) (homeDir : string) (cfg : Config)
    (settings : list FlagSetting) (args : list string)
    (inputText translatedText : string) (t1 t2 t3 : list Event) :
  let vars := flagVarsOf settings in
  w_user_Current w = Ok homeDir ->
  loadConfiguration (configPathOf w homeDir) w = (t1, Return cfg) ->
  w_commandLine w = Accepted settings args ->
  versionFlag vars = false ->
  resolveInputText (textArg vars) args w = (t2, Return inputText) ->
  inputText <> "" ->
  translateText inputText
    (finalSourceLang cfg (sourceLangArg vars) (sourceLangShortArg vars))
    (finalTargetLang cfg (targetLangArg vars) (targetLangShortArg vars))
    (finalURL cfg (urlArg vars)) w = (t3, Return (Ok translatedText)) ->
  main w
  = ((t1 ++ t2 ++ t3
      ++ [ClipboardWrite translatedText; Stdout (translatedText ++ LF)])%list,
     Return tt)
  /\ exitCode (main w) = 0
  /\ clipboardWrites (fst (main w)) = [ClipboardWrite translatedText]
  /\ stdoutOf (fst (main w)) = stdoutOf t2 ++ translatedText ++ LF.
Proof.
  intros vars Huser Hload Hflags Hversion Hinput Hne Htr.
  pose proof (main_translated w homeDir cfg settings args inputText t1 t2
                Huser Hload Hflags Hversion Hinput t3 translatedText Hne Htr)
    as Hmain.
  rewrite Hmain. cbn [fst].
  pose proof (loadConfiguration_no_stdout (configPathOf w homeDir) w) as Hout1.
  pose proof (loadConfiguration_no_clipboard (configPathOf w homeDir) w) as Hc1.
  pose proof (resolveInputText_no_clipboard (textArg vars) args w) as Hc2.
  pose proof (translateText_no_clipboard inputText
                (finalSourceLang cfg (sourceLangArg vars) (sourceLangShortArg vars))
                (finalTargetLang cfg (targetLangArg vars) (targetLangShortArg vars))
                (finalURL cfg (urlArg vars)) w) as Hc3.
  pose proof (translateText_no_stdout inputText
                (finalSourceLang cfg (sourceLangArg vars) (sourceLangShortArg vars))
                (finalTargetLang cfg (targetLangArg vars) (targetLangShortArg vars))
                (finalURL cfg (urlArg vars)) w) as Hout3.
  rewrite Hload in Hout1, Hc1. rewrite Hinput in Hc2.
  rewrite Htr in Hc3, Hout3. cbn [fst] in *.
  split; [reflexivity | split; [reflexivity | split]].
  - rewrite !clipboardWrites_app,
      (clipboardWrites_silent _ Hc1), (clipboardWrites_silent _ Hc2),
      (clipboardWrites_silent _ Hc3).
    reflexivity.
  - rewrite !stdoutOf_app, (stdoutOf_silent _ Hout1), (stdoutOf_silent _ Hout3).
    simpl. now rewrite Str.append_nil_r.
Qed.

Lemma successful_run_witness :
  main stubWorld
  = ([HttpPost stubURL "application/json"
        "{text:Test text,source_lang:auto,target_lang:ZH}";
      ClipboardWrite "X"; Stdout ("X" ++ LF)], Return tt)
  /\ exitCode (main stubWorld) = 0
  /\ clipboardWrites (fst (main stubWorld)) = [ClipboardWrite "X"]
  /\ stdoutOf (fst (main stubWorld)) = "X" ++ LF.
Proof.
  apply (successful_run stubWorld "/home/user"
           (mkConfig "http://localhost:8080" "auto" "ZH")
           [Flag_text "Test text"; Flag_url stubURL; Flag_s "auto"; Flag_t "ZH"]
           [] "Test text" "X" [] []
           [HttpPost stubURL "application/json"
              "{text:Test text,source_lang:auto,target_lang:ZH}"]);
    try reflexivity.
  discriminate.
Defined.

(** X14. When [translateText] returns an error, [main] logs it after
    ["Translation failed: "] and ends with status 1; the clipboard is not
    written and no translation reaches standard output. *)
Theorem failed_translation_is_fatal
    (w : World) (homeDir : string) (cfg : Config)
    (settings : list FlagSetting) (args : list string)
    (inputText : string) (err : error) (t1 t2 t3 : list Event) :
  let vars := flagVarsOf settings in
  w_user_Current w = Ok homeDir ->
  loadConfiguration (configPathOf w homeDir) w = (t1, Return cfg) ->
  w_commandLine w = Accepted settings args ->
  versionFlag vars = false ->
  resolveInputText (textArg vars) args w = (t2, Return inputText) ->
  inputText <> "" ->
  translateText inputText
    (finalSourceLang cfg (sourceLangArg vars) (sourceLangShortArg vars))
    (finalTargetLang cfg (targetLangArg vars) (targetLangShortArg vars))
    (finalURL cfg (urlArg vars)) w = (t3, Return (Err err)) ->
  main w
  = ((t1 ++ t2 ++ t3 ++ [Log ("Translation failed: " ++ err)])%list, Exit 1)
  /\ clipboardWrites (fst (main w)) = []
  /\ stdoutOf (fst (main w)) = stdoutOf t2.
Proof.
  intros vars Huser Hload Hflags Hversion Hinput Hne Htr.
  pose proof (main_translation_failed w homeDir cfg settings args inputText
                t1 t2 Huser Hload Hflags Hversion Hinput t3 err Hne Htr)
    as Hmain.
  rewrite Hmain. cbn [fst].
  pose proof (loadConfiguration_no_stdout (configPathOf w homeDir) w) as Hout1.
  pose proof (loadConfiguration_no_clipboard (configPathOf w homeDir) w) as Hc1.
  pose proof (resolveInputText_no_clipboard (textArg vars) args w) as Hc2.
  pose proof (translateText_no_clipboard inputText
                (finalSourceLang cfg (sourceLangArg vars) (sourceLangShortArg vars))
                (finalTargetLang cfg (targetLangArg vars) (targetLangShortArg vars))
                (finalURL cfg (urlArg vars)) w) as Hc3.
  pose proof (translateText_no_stdout inputText
                (finalSourceLang cfg (sourceLangArg vars) (sourceLangShortArg vars))
                (finalTargetLang cfg (targetLangArg vars) (targetLangShortArg vars))
                (finalURL cfg (urlArg vars)) w) as Hout3.
  rewrite Hload in Hout1, Hc1. rewrite Hinput in Hc2.
  rewrite Htr in Hc3, Hout3. cbn [fst] in *.
  split; [reflexivity | split].
  - rewrite !clipboardWrites_app,
      (clipboardWrites_silent _ Hc1), (clipboardWrites_silent _ Hc2),
      (clipboardWrites_silent _ Hc3).
    reflexivity.
  - rewrite !stdoutOf_app, (stdoutOf_silent _ Hout1), (stdoutOf_silent _ Hout3).
    simpl. now rewrite Str.append_nil_r.
Qed.

Lemma failed_translation_is_fatal_witness :
  main quotaWorld
  = ([HttpPost stubURL "application/json"
        "{text:Test text,source_lang:auto,target_lang:ZH}";
      Log "Translation failed: translation failed with code 429: too many requests"],
     Exit 1)
  /\ clipboardWrites (fst (main quotaWorld)) = []
  /\ stdoutOf (fst (main quotaWorld)) = "".
Proof.
  apply (failed_translation_is_fatal quotaWorld "/home/user"
           (mkConfig "http://localhost:8080" "auto" "ZH")
           [Flag_text "Test text"; Flag_url stubURL; Flag_s "auto"; Flag_t "ZH"]
           [] "Test text"
           "translation failed with code 429: too many requests" [] []
           [HttpPost stubURL "application/json"
              "{text:Test text,source_lang:auto,target_lang:ZH}"]);
    try reflexivity.
  discriminate.
Defined.

(** ** The empty configuration and the default configuration *)

(** X15. Once loaded, the empty configuration (an unreadable or unparsable
    file) and the default configuration (a first run) give the same run,
    whatever the command line and the world: the built-in defaults of the
    merge are the values of the default document. *)
Theorem empty_config_runs_as_default_config (w : World) :
  mainWithConfig emptyConfig w = mainWithConfig defaultConfig w.
Proof.
  assert (Hurl : forall u, finalURL emptyConfig u = finalURL defaultConfig u).
  { intros u. unfold finalURL, nonEmpty. simpl.
    now destruct (u =? "")%string. }
  assert (Hsrc : forall l s,
             finalSourceLang emptyConfig l s = finalSourceLang defaultConfig l s).
  { intros l s. unfold finalSourceLang, nonEmpty. simpl.
    now destruct (l =? "")%string, (s =? "")%string. }
  assert (Htgt : forall l s,
             finalTargetLang emptyConfig l s = finalTargetLang defaultConfig l s).
  { intros l s. unfold finalTargetLang, nonEmpty. simpl.
    now destruct (l =? "")%string, (s =? "")%string. }
  unfold mainWithConfig. apply bind_ext. intros [vars flag_Args].
  destruct (versionFlag vars); [reflexivity|].
  cbv zeta. now rewrite Hurl, Hsrc, Htgt.
Qed.

(** ** The revision without the clipboard *)

Lemma withoutClipboard_app (t u : list Event) :
  withoutClipboard (t ++ u) = (withoutClipboard t ++ withoutClipboard u)%list.
Proof. apply filter_app. Qed.

Lemma withoutClipboard_silent (t : list Event) :
  forallb notClipboardWrite t = true -> withoutClipboard t = t.
Proof.
  induction t as [|e t IH]; simpl; [reflexivity|].
  intros H. apply andb_prop in H as [He Ht].
  unfold withoutClipboard in *. simpl. now rewrite He, IH.
Qed.

Lemma stdoutOf_withoutClipboard (t : list Event) :
  stdoutOf (withoutClipboard t) = stdoutOf t.
Proof.
  induction t as [|e t IH]; [reflexivity|].
  destruct e; simpl; unfold withoutClipboard in *; simpl; now rewrite ?IH.
Qed.

Lemma filter_withoutClipboard (p : Event -> bool) (t : list Event) :
  (forall e, p e = true -> notClipboardWrite e = true) ->
  filter p (withoutClipboard t) = filter p t.
Proof.
  intros Hp. induction t as [|e t IH]; [reflexivity|].
  unfold withoutClipboard in *. simpl.
  destruct (notClipboardWrite e) eqn:He; simpl; rewrite IH; [reflexivity|].
  destruct (p e) eqn:Hpe; [|reflexivity].
  rewrite (Hp e Hpe) in He. discriminate He.
Qed.

Lemma sameButClipboard_silent {A : Type} (m : M A) :
  emitsOnly notClipboardWrite m -> sameButClipboard m m.
Proof.
  intros Hm w. rewrite (withoutClipboard_silent _ (Hm w)).
  now destruct (m w).
Qed.

Lemma sameButClipboard_bind {A B : Type} (m0 m : M A) (k0 k : A -> M B) :
  sameButClipboard m0 m -> (forall a, sameButClipboard (k0 a) (k a)) ->
  sameButClipboard (bind m0 k0) (bind m k).
Proof.
  intros Hm Hk w. unfold bind. rewrite (Hm w).
  destruct (m w) as [t [a|code]]; cbn [fst snd]; [|reflexivity].
  rewrite (Hk a w). destruct (k a w) as [t' o]. cbn [fst snd].
  now rewrite withoutClipboard_app.
Qed.

Lemma printing_sameButClipboard (translatedText : string) :
  sameButClipboard
    (fmt_Printf (translatedText ++ LF))
    (clipErr <- clipboard_WriteAll translatedText ;;
     match clipErr with
     | Some _ => ret tt
     | None => ret tt
     end ;;
     fmt_Printf (translatedText ++ LF)).
Proof.
  intros w. unfold_calls.
  destruct (w_clipboard_WriteAll w translatedText); reflexivity.
Qed.

(** X16. The earlier revision of [main], which has no clipboard write, and
    [main] run alike in every world: the trace of the earlier one is the trace
    of [main] less the clipboard write, so both print the same text, write
    the same file, send the same request and end with the same status. *)
Theorem main_part000_is_main_without_clipboard (w : World) :
  main_part000 w = (withoutClipboard (fst (main w)), snd (main w))
  /\ stdoutOf (fst (main_part000 w)) = stdoutOf (fst (main w))
  /\ fileWrites (fst (main_part000 w)) = fileWrites (fst (main w))
  /\ requests (fst (main_part000 w)) = requests (fst (main w))
  /\ exitCode (main_part000 w) = exitCode (main w).
Proof.
  assert (Hall : sameButClipboard main_part000 main).
  { unfold main_part000, main.
    apply sameButClipboard_bind; [apply sameButClipboard_silent; emits_only|].
    intros [homeDir|err]; [|apply sameButClipboard_silent; emits_only].
    apply sameButClipboard_bind; [apply sameButClipboard_silent; emits_only|].
    intros configPath.
    apply sameButClipboard_bind;
      [apply sameButClipboard_silent, loadConfiguration_no_clipboard|].
    intros cfg. unfold mainWithConfig_part000, mainWithConfig.
    apply sameButClipboard_bind;
      [apply sameButClipboard_silent, flag_Parse_no_clipboard|].
    intros [vars flag_Args].
    destruct (versionFlag vars); [apply sameButClipboard_silent; emits_only|].
    apply sameButClipboard_bind;
      [apply sameButClipboard_silent, resolveInputText_no_clipboard|].
    intros inputText.
    destruct (inputText =? "")%string;
      [apply sameButClipboard_silent; emits_only|].
    apply sameButClipboard_bind;
      [apply sameButClipboard_silent, translateText_no_clipboard|].
    intros [translatedText|err];
      [apply printing_sameButClipboard
      | apply sameButClipboard_silent; emits_only]. }
  rewrite (Hall w). cbn [fst].
  split; [reflexivity|].
  split; [apply stdoutOf_withoutClipboard|].
  split; [apply filter_withoutClipboard; now intros []|].
  split; [apply filter_withoutClipboard; now intros [] | reflexivity].
Qed.

(** ** [loadConfig] *)

(** X17. [loadConfig] has no effect of its own and never ends the process.
    It returns a configuration exactly when the file can be read and its
    content parses, and then the parsed one; otherwise its error names the
    path and the cause, and tells a failed read from a failed parse. *)
Theorem loadConfig_outcome (configPath : string) (w : World) :
  exists r,
    loadConfig configPath w = ([], Return r)
    /\ (forall cfg,
          r = Ok cfg <->
          exists file,
            w_os_ReadFile w configPath = Ok file
            /\ w_yaml_Unmarshal w file = Ok cfg)
    /\ (forall err,
          r = Err err ->
          (exists cause,
             w_os_ReadFile w configPath = Err cause
             /\ err = "failed to read config file " ++ configPath ++ ": " ++ cause)
          \/ (exists file cause,
                w_os_ReadFile w configPath = Ok file
                /\ w_yaml_Unmarshal w file = Err cause
                /\ err = "failed to parse config file " ++ configPath
                         ++ ": " ++ cause)).
Proof.
  eexists. split; [apply loadConfig_result|].
  destruct (w_os_ReadFile w configPath) as [file|cause] eqn:Hread.
  - destruct (w_yaml_Unmarshal w file) as [parsed|cause] eqn:Hparse.
    + split.
      * intros cfg. split.
        -- intros [= <-]. now exists file.
        -- intros (file' & [= <-] & Hp). rewrite Hparse in Hp.
           now injection Hp as <-.
      * intros err [=].
    + split.
      * intros cfg. split; [discriminate|].
        intros (file' & [= <-] & Hp). rewrite Hparse in Hp. discriminate Hp.
      * intros err [= <-]. right. now exists file, cause.
  - split.
    + intros cfg. split; [discriminate|]. intros (file & [=] & _).
    + intros err [= <-]. left. now exists cause.
Qed.

(** ** The request on the wire *)


